(** * Reparaturbonus: the Analyzer and the Collector, embedded and verified

    The repository holds two scripts.  [scripts/analyser.py] loads a table
    of bicycle repair shops and computes price-validity flags, a date
    partition, inflation-adjusted prices and price increases.
    [scripts/bike_shops_vienna_scraper.py] enriches shop records with the
    oldest and newest snapshot date of their website.

    The embedding is shallow.  Python values are an inductive type, Python
    floats are the binary64 numbers of [PrimFloat], exceptions are the
    [Raise] branch of a result type threaded by a bind, the CPI dictionary is
    a finite map, and the one network call of the Collector is a node of a
    small request tree. *)

From Stdlib Require Import ZArith Floats Bool Ascii String List Lia.
From Stdlib Require Import Permutation Sorted.
From stdpp Require Import base option strings gmap.
Import ListNotations.

Set Warnings "-inexact-float".
Local Open Scope Z_scope.

(** ** Python values, exceptions and the builtins the scripts call *)

Module Py.

(** The exception classes that the two scripts can meet. *)
Inductive exn : Type :=
| KeyError
| TypeError
| ValueError
| OverflowError
| ZeroDivisionError
| IndexError
| RequestException
| JSONDecodeError
| AttributeError.

(** A computation either returns a value or raises. *)
Inductive result (A : Type) : Type :=
| Ret (a : A)
| Raise (e : exn).
Arguments Ret {A} a.
Arguments Raise {A} e.

Definition bind {A B : Type} (c : result A) (k : A -> result B) : result B :=
  match c with
  | Ret a => k a
  | Raise e => Raise e
  end.

(** [try: body / except <caught>: handler]. *)
Definition try_except {A : Type} (body : result A) (caught : exn -> bool)
    (handler : result A) : result A :=
  match body with
  | Ret a => Ret a
  | Raise e => if caught e then handler else Raise e
  end.

Definition returns {A : Type} (c : result A) : Prop := exists a, c = Ret a.
Definition raises {A : Type} (c : result A) : Prop := exists e, c = Raise e.

(** Row-wise [apply]: the first raising row aborts the whole column. *)
Fixpoint mapM {A B : Type} (f : A -> result B) (l : list A) : result (list B) :=
  match l with
  | [] => Ret []
  | x :: l' =>
      bind (f x) (fun y => bind (mapM f l') (fun ys => Ret (y :: ys)))
  end.

(** The scalar values a table cell or a function argument can hold.
    Python integers are unbounded, Python floats are binary64. *)
Inductive PyVal : Type :=
| VNone
| VBool (b : bool)
| VInt (z : Z)
| VFloat (f : float)
| VStr (s : string).

(** *** Characters.  A string is a sequence of code points below 256. *)

Definition code (c : ascii) : Z := Z.of_N (N_of_ascii c).

Definition is_digit (c : ascii) : bool := (48 <=? code c) && (code c <=? 57).

Definition digit_value (c : ascii) : Z := code c - 48.

(** [Py_ISSPACE]: space, tab, line feed, vertical tab, form feed, return. *)
Definition is_space (c : ascii) : bool :=
  ((9 <=? code c) && (code c <=? 13)) || (code c =? 32).

(** [Py_TOLOWER] on ASCII letters. *)
Definition ascii_lower (c : ascii) : ascii :=
  if (65 <=? code c) && (code c <=? 90)
  then ascii_of_N (N_of_ascii c + 32) else c.

(** [str.lower] on code points below 256: the ASCII capitals and the
    Latin-1 capitals U+00C0..U+00DE without the multiplication sign. *)
Definition char_lower (c : ascii) : ascii :=
  if ((65 <=? code c) && (code c <=? 90))
     || ((192 <=? code c) && (code c <=? 222) && negb (code c =? 215))
  then ascii_of_N (N_of_ascii c + 32) else c.

Fixpoint str_lower (s : string) : string :=
  match s with
  | EmptyString => EmptyString
  | String c s' => String (char_lower c) (str_lower s')
  end.

(** [s[i:j]] for [0 <= i <= j]: slices never raise, they truncate. *)
Definition slice (i j : nat) (s : string) : string := substring i (j - i) s.

(** *** Binary64 helpers *)

(** Nearest integer to [num / den] for [den > 0], ties to even. *)
Definition div_half_even (num den : Z) : Z :=
  let q := num / den in
  let r := num mod den in
  match 2 * r ?= den with
  | Lt => q
  | Gt => q + 1
  | Eq => if Z.even q then q else q + 1
  end.

(** [|x| * 100] for [|x| = m * 2^e], rounded to an integer, ties to even. *)
Definition hundredths (m : positive) (e : Z) : Z :=
  match e with
  | Zneg k => div_half_even (Zpos m * 100) (2 ^ Zpos k)
  | _ => Zpos m * 100 * 2 ^ e
  end.

(** The binary64 number nearest to [(-1)^s * num / den]. *)
Definition nearest_ratio (s : bool) (num den : positive) : float :=
  SF2Prim (SFdiv prec emax (S754_finite s num 0) (S754_finite false den 0)).

(** [round(x, 2)] on a float: infinities and NaN round to themselves; a
    finite [x] is rounded to two decimals on its exact value (ties to
    even) and the decimal result is converted back to the nearest
    binary64 number, keeping the sign of [x]. *)
Definition round2 (x : float) : float :=
  match Prim2SF x with
  | S754_finite s m e =>
      match hundredths m e with
      | Zpos n => nearest_ratio s n 100
      | _ => SF2Prim (S754_zero s)
      end
  | _ => x
  end.

(** Conversion of an [int] to a float: correctly rounded, and
    [OverflowError] when the integer is too large. *)
Definition float_of_int (z : Z) : result float :=
  match binary_normalize prec emax z 0 false with
  | S754_infinity _ => Raise OverflowError
  | sf => Ret (SF2Prim sf)
  end.

(** *** [float(str)] *)

(** A text that is not pure ASCII is mapped to ASCII first: the Unicode
    spaces U+0085 and U+00A0 become a blank, and any other code point from
    127 on becomes a question mark, which no number contains. *)
Definition to_ascii_char (c : ascii) : ascii :=
  if code c <? 127 then c
  else if (code c =? 133) || (code c =? 160) then " "%char
  else "?"%char.

Definition to_ascii_text (l : list ascii) : list ascii :=
  if forallb (fun c => code c <? 128) l then l else map to_ascii_char l.

(** An underscore is accepted between two digits only, and dropped. *)
Fixpoint drop_underscores (prev : ascii) (l : list ascii) : option (list ascii) :=
  match l with
  | [] => if Ascii.eqb prev "_" then None else Some []
  | c :: l' =>
      if Ascii.eqb c "_" then
        if is_digit prev then drop_underscores c l' else None
      else if Ascii.eqb prev "_" && negb (is_digit c) then None
      else option_map (cons c) (drop_underscores c l')
  end.

Fixpoint lstrip (l : list ascii) : list ascii :=
  match l with
  | c :: l' => if is_space c then lstrip l' else l
  | [] => []
  end.

Definition strip (l : list ascii) : list ascii := rev (lstrip (rev (lstrip l))).

Fixpoint span_digits (l : list ascii) : list ascii * list ascii :=
  match l with
  | c :: l' =>
      if is_digit c
      then let '(ds, rest) := span_digits l' in (c :: ds, rest)
      else ([], l)
  | [] => ([], [])
  end.

Definition digits_value (ds : list ascii) : Z :=
  fold_left (fun acc c => 10 * acc + digit_value c) ds 0.

Definition take_sign (l : list ascii) : bool * list ascii :=
  match l with
  | c :: l' =>
      if Ascii.eqb c "-" then (true, l')
      else if Ascii.eqb c "+" then (false, l')
      else (false, l)
  | [] => (false, [])
  end.

(** Case-insensitive prefix test; returns what follows the prefix. *)
Fixpoint match_nocase (word : list ascii) (l : list ascii) : option (list ascii) :=
  match word, l with
  | [], _ => Some l
  | w :: word', c :: l' =>
      if Ascii.eqb (ascii_lower c) w then match_nocase word' l' else None
  | _ :: _, [] => None
  end.

(** A decimal literal [(-1)^s * d * 10^e], correctly rounded. *)
Definition decimal_value (s : bool) (d e : Z) : float :=
  match d with
  | Zpos n =>
      match e with
      | Zneg k => nearest_ratio s n (10 ^ k)%positive
      | _ => SF2Prim (binary_round prec emax s (n * Z.to_pos (10 ^ e))%positive 0)
      end
  | _ => SF2Prim (S754_zero s)
  end.

(** The optional exponent: [e] or [E], an optional sign, at least one
    digit.  A malformed exponent is not consumed. *)
Definition parse_exponent (l : list ascii) : Z * list ascii :=
  match l with
  | c :: l1 =>
      if Ascii.eqb (ascii_lower c) "e" then
        let '(es, l2) := take_sign l1 in
        let '(eds, l3) := span_digits l2 in
        match eds with
        | [] => (0, l)
        | _ => ((if es then - digits_value eds else digits_value eds), l3)
        end
      else (0, l)
  | [] => (0, [])
  end.

(** A decimal number: sign, digits with an optional point (at least one
    digit in all), optional exponent.  [None] when no number starts here;
    otherwise the value and the unread rest. *)
Definition parse_decimal (l : list ascii) : option (float * list ascii) :=
  let '(s, l1) := take_sign l in
  let '(ip, l2) := span_digits l1 in
  let '(fp, l3) :=
    match l2 with
    | c :: l2' => if Ascii.eqb c "." then span_digits l2' else ([], l2)
    | [] => ([], [])
    end in
  match ip ++ fp with
  | [] => None
  | ds =>
      let '(e, l4) := parse_exponent l3 in
      Some (decimal_value s (digits_value ds) (e - Z.of_nat (length fp)), l4)
  end.

(** [inf], [infinity] and [nan], in any letter case, with optional sign. *)
Definition parse_inf_or_nan (l : list ascii) : option (float * list ascii) :=
  let '(s, l1) := take_sign l in
  match match_nocase (list_ascii_of_string "inf") l1 with
  | Some l2 =>
      let rest :=
        match match_nocase (list_ascii_of_string "inity") l2 with
        | Some l3 => l3
        | None => l2
        end in
      Some ((if s then neg_infinity else infinity), rest)
  | None =>
      match match_nocase (list_ascii_of_string "nan") l1 with
      | Some l2 => Some (nan, l2)
      | None => None
      end
  end.

(** [float(s)] for a string: [None] stands for [ValueError].  The whole
    stripped text has to be consumed by one number; its value is the
    nearest binary64 number, an infinity on overflow.  (The interpreter
    gives up on texts of more than a billion digits, which are not
    considered here.) *)
Definition float_of_string (s : string) : option float :=
  let l := to_ascii_text (list_ascii_of_string s) in
  match (if existsb (Ascii.eqb "_") l then drop_underscores Ascii.zero l else Some l) with
  | None => None
  | Some l' =>
      let t := strip l' in
      match parse_decimal t with
      | Some (x, []) => Some x
      | Some (_, _ :: _) => None
      | None =>
          match parse_inf_or_nan t with
          | Some (x, []) => Some x
          | _ => None
          end
      end
  end.

(** *** Builtins on values *)

(** [float(v)]. *)
Definition py_float (v : PyVal) : result float :=
  match v with
  | VNone => Raise TypeError
  | VBool b => Ret (if b then 1%float else 0%float)
  | VInt z => float_of_int z
  | VFloat f => Ret f
  | VStr s =>
      match float_of_string s with
      | Some x => Ret x
      | None => Raise ValueError
      end
  end.

(** The promotion of a number to float in mixed arithmetic; a string or
    [None] is no number. *)
Definition as_float (v : PyVal) : result float :=
  match v with
  | VFloat x => Ret x
  | VInt z => float_of_int z
  | VBool b => Ret (if b then 1%float else 0%float)
  | VStr _ | VNone => Raise TypeError
  end.

(** [v * f] for a float [f]. *)
Definition mul_float (v : PyVal) (f : float) : result PyVal :=
  bind (as_float v) (fun x => Ret (VFloat (x * f))).

(** [a / b] on floats raises on a zero divisor (of either sign). *)
Definition float_div (a b : float) : result float :=
  if (b =? 0)%float then Raise ZeroDivisionError else Ret (a / b)%float.

(** [round(v, 2)]: a float is rounded, an integer is returned as it is. *)
Definition py_round2 (v : PyVal) : result PyVal :=
  match v with
  | VFloat x => Ret (VFloat (round2 x))
  | VInt z => Ret (VInt z)
  | VBool b => Ret (VInt (if b then 1 else 0))
  | VStr _ | VNone => Raise TypeError
  end.

(** [pd.isna(v)] on a scalar: [None] and the float NaN. *)
Definition isna (v : PyVal) : bool :=
  match v with
  | VNone => true
  | VFloat f => is_nan f
  | _ => false
  end.

(** The test [val == ''] against the empty string. *)
Definition eq_empty_str (v : PyVal) : bool :=
  match v with
  | VStr s => String.eqb s EmptyString
  | _ => false
  end.

Definition is_None (v : PyVal) : bool :=
  match v with
  | VNone => true
  | _ => false
  end.

End Py.

Import Py.

Notation "'let*' x ':=' c 'in' k" := (bind c (fun x => k))
  (at level 10, x name, c at level 100, k at level 200).

(** ** scripts/analyser.py *)

Module Analyser.

(** The module-level dictionary [cpi_2015_base]. *)
Definition cpi_2015_base : gmap Z float :=
  list_to_map
    [ (2015, 100.0%float);
      (2016, 100.9%float);
      (2017, 103.0%float);
      (2018, 105.1%float);
      (2019, 106.7%float);
      (2020, 108.2%float);
      (2021, 111.2%float);
      (2022, 120.7%float);
      (2023, 130.1%float);
      (2024, 134.0%float);
      (2025, 136.78%float) ].

(** [cpi_table[year]]: a missing key raises [KeyError]. *)
Definition getitem (cpi_table : gmap Z float) (year : Z) : result float :=
  match cpi_table !! year with
  | Some v => Ret v
  | None => Raise KeyError
  end.

Definition is_KeyError (e : exn) : bool :=
  match e with
  | KeyError => true
  | _ => false
  end.

(** [adjust_for_inflation(price, base_year, target_year, cpi_table)]. *)
Definition adjust_for_inflation (price : PyVal) (base_year target_year : Z)
    (cpi_table : gmap Z float) : result PyVal :=
  try_except
    (let* cpi_base := getitem cpi_table base_year in
     let* cpi_target := getitem cpi_table target_year in
     let* ratio := float_div cpi_target cpi_base in
     let* product := mul_float price ratio in
     py_round2 product)
    is_KeyError
    (Ret VNone).

Definition is_ValueError_or_TypeError (e : exn) : bool :=
  match e with
  | ValueError | TypeError => true
  | _ => false
  end.

(** [is_float(val)]. *)
Definition is_float (val : PyVal) : result bool :=
  try_except
    (if isna val || eq_empty_str val || is_None val then Ret false
     else
       let* _x := py_float val in
       Ret true)
    is_ValueError_or_TypeError
    (Ret false).

(** The four tags of the [price_info] column. *)
Inductive PriceInfo : Type :=
| both
| only_first
| only_current
| none.

(** The lambda that builds [price_info] from the two flag columns. *)
Definition price_info (First_Price_Valid Current_Price_Valid : bool) : PriceInfo :=
  if First_Price_Valid && Current_Price_Valid then both
  else if First_Price_Valid then only_first
  else if Current_Price_Valid then only_current
  else none.

(** A parsed date: the calendar fields of a pandas [Timestamp] and the
    nanoseconds elapsed in its day. *)
Record Timestamp : Type := mkTimestamp {
  year : Z;
  month : Z;
  day : Z;
  nanos : Z
}.

(** Chronological order, field by field. *)
Definition ts_ltb (a b : Timestamp) : bool :=
  (year a <? year b)
  || ((year a =? year b)
      && ((month a <? month b)
          || ((month a =? month b)
              && ((day a <? day b)
                  || ((day a =? day b) && (nanos a <? nanos b)))))).

(** A row of the table.  The text column [offers repair] holds a string
    or is missing; the two price cells hold whatever the loader left
    there; the two date cells hold the outcome of
    [pd.to_datetime(..., errors="coerce")], where [None] is [NaT]. *)
Record Row : Type := mkRow {
  offers_repair : option string;
  First_Price : PyVal;
  Current_Price : PyVal;
  First_Price_Date : option Timestamp;
  Current_Price_Date : option Timestamp
}.

(** The columns [First_Price_Valid] and [Current_Price_Valid], one [apply]
    each, and the [price_info] column built from them row by row. *)
Definition price_info_column (df : list Row) : result (list PriceInfo) :=
  let* firsts := mapM (fun r => is_float (First_Price r)) df in
  let* currents := mapM (fun r => is_float (Current_Price r)) df in
  Ret (map (fun fc => price_info (fst fc) (snd fc)) (combine firsts currents)).

(** [.str.lower().str.startswith("yes", na=False)]. *)
Definition starts_with_yes (r : Row) : bool :=
  match offers_repair r with
  | Some s => String.prefix "yes" (str_lower s)
  | None => false
  end.

(** The rows that line 86 keeps, once the [.str] accessor has accepted
    the column. *)
Definition yes_subset (df : list Row) : list Row :=
  List.filter starts_with_yes df.



(** [pd.Timestamp("2021-01-01")]. *)
Definition ts_2021_01_01 : Timestamp := mkTimestamp 2021 1 1 0.

(** [yes_subset["First Price Date"] < "2021-01-01"]: [NaT] compares false. *)
Definition condition_first_before_2021 (r : Row) : bool :=
  match First_Price_Date r with
  | Some d => ts_ltb d ts_2021_01_01
  | None => false
  end.

(** [yes_subset["Current Price Date"].dt.year == 2025]. *)
Definition condition_current_in_2025 (r : Row) : bool :=
  match Current_Price_Date r with
  | Some d => year d =? 2025
  | None => false
  end.

Definition qualifies (r : Row) : bool :=
  condition_first_before_2021 r && condition_current_in_2025 r.

Definition subset_a (yes : list Row) : list Row := List.filter qualifies yes.

Definition subset_b (yes : list Row) : list Row :=
  List.filter (fun r => negb (qualifies r)) yes.

(** The lambda of the [First Price (Inflation adjusted)] column.  The
    year of [NaT] is NaN, which is no key of the table. *)
Definition first_price_adjusted (r : Row) : result PyVal :=
  match First_Price_Date r with
  | Some d => adjust_for_inflation (First_Price r) (year d) 2025 cpi_2015_base
  | None => Ret VNone
  end.

(** The lambda of the [Price Increase (%)] column, on the current price
    and the adjusted first price of a row.  The condition is evaluated
    first, with the short cut of [and]; the adjusted price is converted
    twice, as the expression names it twice. *)
Definition price_increase (current adjusted : PyVal) : result PyVal :=
  let* current_ok := is_float current in
  let* both_ok := (if current_ok then is_float adjusted else Ret false) in
  if both_ok then
    let* c := py_float current in
    let* a := py_float adjusted in
    let* a' := py_float adjusted in
    let* q := float_div (c - a) a' in
    py_round2 (VFloat (q * 100))
  else Ret VNone.

(** The two [apply] calls over [subset_a], one after the other.  On a
    subset without rows [apply] hands back a table instead of a column,
    and the assignment of the first column raises [ValueError].  A
    [None] among floats is stored by the table as NaN; [is_float] rejects
    the one like the other. *)
Definition analyse (a : list Row) : result (list PyVal * list PyVal) :=
  match a with
  | [] => Raise ValueError
  | _ :: _ =>
      let* adjusted := mapM first_price_adjusted a in
      let* increases :=
        mapM (fun ra => price_increase (Current_Price (fst ra)) (snd ra))
             (combine a adjusted) in
      Ret (adjusted, increases)
  end.


(** *** The summaries printed by the script *)

(** [df[mask].shape[0]] for a mask built from the two flag columns. *)
Definition mask_count (mask : bool * bool -> bool) (firsts currents : list bool) : nat :=
  length (List.filter mask (combine firsts currents)).

Definition both_valid : list bool -> list bool -> nat :=
  mask_count (fun fc => fst fc && snd fc).

Definition only_first_valid : list bool -> list bool -> nat :=
  mask_count (fun fc => fst fc && negb (snd fc)).

Definition only_current_valid : list bool -> list bool -> nat :=
  mask_count (fun fc => negb (fst fc) && snd fc).

Definition neither_valid : list bool -> list bool -> nat :=
  mask_count (fun fc => negb (fst fc) && negb (snd fc)).

(** The [Count] column of [summary_price_validity]. *)
Definition summary_price_validity (firsts currents : list bool) : list nat :=
  [ both_valid firsts currents; only_first_valid firsts currents;
    only_current_valid firsts currents; neither_valid firsts currents ].

(** [summary_price_validity['Count'].sum()]. *)
Definition price_data_total (firsts currents : list bool) : nat :=
  list_sum (summary_price_validity firsts currents).

(** [groupby(...).size()]: one entry per distinct key, in ascending key
    order, with the number of rows that carry the key.  Rows are counted
    in one at a time; the key order is given by [cmp]. *)
Section GroupBy.

Context {K : Type} (cmp : K -> K -> comparison).

Fixpoint count_key (k : K) (groups : list (K * nat)) : list (K * nat) :=
  match groups with
  | [] => [(k, 1%nat)]
  | (k', n) :: rest =>
      match cmp k k' with
      | Eq => (k', S n) :: rest
      | Lt => (k, 1%nat) :: groups
      | Gt => (k', n) :: count_key k rest
      end
  end.

Fixpoint groupby_size (keys : list K) : list (K * nat) :=
  match keys with
  | [] => []
  | k :: keys' => count_key k (groupby_size keys')
  end.

(** The count stored for a key, 0 when the key has no group. *)
Fixpoint group_count (k : K) (groups : list (K * nat)) : nat :=
  match groups with
  | [] => 0%nat
  | (k', n) :: rest =>
      match cmp k k' with
      | Eq => n
      | _ => group_count k rest
      end
  end.

End GroupBy.

(** The keys of the rows that have one: a missing key forms no group. *)
Fixpoint present_keys (df : list Row) : list string :=
  match df with
  | [] => []
  | r :: df' =>
      match offers_repair r with
      | Some k => k :: present_keys df'
      | None => present_keys df'
      end
  end.

(** [df.groupby("offers repair").size()]. *)
Definition grouped_offers_repair (df : list Row) : list (string * nat) :=
  groupby_size String.compare (present_keys df).

(** [grouped_offers_repair['Count'].sum()]. *)
Definition offers_total (df : list Row) : nat :=
  list_sum (map snd (grouped_offers_repair df)).

(** The label of a tag, which orders the columns of the pivot. *)
Definition tag_name (t : PriceInfo) : string :=
  match t with
  | both => "both"
  | only_first => "only_first"
  | only_current => "only_current"
  | none => "none"
  end.

Definition tag_compare (t u : PriceInfo) : comparison :=
  String.compare (tag_name t) (tag_name u).

Definition pair_compare (a b : string * PriceInfo) : comparison :=
  match String.compare (fst a) (fst b) with
  | Eq => tag_compare (snd a) (snd b)
  | c => c
  end.

(** The key pairs of the rows that have an [offers repair] value. *)
Fixpoint present_pairs (df : list Row) (tags : list PriceInfo) : list (string * PriceInfo) :=
  match df, tags with
  | r :: df', t :: tags' =>
      match offers_repair r with
      | Some k => (k, t) :: present_pairs df' tags'
      | None => present_pairs df' tags'
      end
  | _, _ => []
  end.

(** [df.groupby(["offers repair", "price_info"]).size()]. *)
Definition overlap (df : list Row) (tags : list PriceInfo) : list (string * PriceInfo * nat) :=
  groupby_size pair_compare (present_pairs df tags).

(** [overlap.pivot(...).fillna(0).astype(int)]: the row labels, the column
    labels, and one list of counts per row label. *)
Definition pivot_index (ov : list (string * PriceInfo * nat)) : list string :=
  map fst (groupby_size String.compare (map (fun e => fst (fst e)) ov)).

Definition pivot_columns (ov : list (string * PriceInfo * nat)) : list PriceInfo :=
  map fst (groupby_size tag_compare (map (fun e => snd (fst e)) ov)).

Definition overlap_pivot (ov : list (string * PriceInfo * nat)) : list (string * list nat) :=
  map (fun k => (k, map (fun t => group_count pair_compare (k, t) ov) (pivot_columns ov)))
      (pivot_index ov).

End Analyser.

Import Analyser.

(** ** scripts/bike_shops_vienna_scraper.py *)

Module Scraper.

(** What [response.json()] can hand back, to the depth the function looks
    at.  The reply is indexed twice ([data[1:]] and [entry[1]]), so a
    document is a list of rows and a row is a list of cells; the other
    JSON shapes are kept because they fail at different places.  A cell
    is a JSON scalar: the snapshot index fills its rows with strings, and
    a number cell carries an integer. *)
Inductive json_cell : Type :=
| CStr (s : string)
| CNum (z : Z)
| CBool (b : bool)
| CNull.

Inductive json_row : Type :=
| RList (cells : list json_cell)
| RStr (s : string)
| RObject
| RScalar.

Inductive json_doc : Type :=
| DList (rows : list json_row)
| DStr (s : string)
| DObject (size : nat)
| DScalar.

(** The outcome of [requests.get]: the call raises, or a response comes
    back whose body decodes to JSON or does not. *)
Inductive http_reply : Type :=
| ConnectionFailed
| Response (status_code : Z) (body : option json_doc).

Record request : Type := mkRequest {
  req_url : string;
  req_params : list (string * string);
  req_timeout : Z
}.

(** A computation that may issue GET requests. *)
Inductive prog (A : Type) : Type :=
| Done (a : A)
| Get (r : request) (k : http_reply -> prog A).
Arguments Done {A} a.
Arguments Get {A} r k.

(** Run against a network, and the requests issued on the way. *)
Fixpoint run {A : Type} (net : request -> http_reply) (p : prog A) : A :=
  match p with
  | Done a => a
  | Get r k => run net (k (net r))
  end.

Fixpoint calls {A : Type} (net : request -> http_reply) (p : prog A) : list request :=
  match p with
  | Done _ => []
  | Get r k => r :: calls net (k (net r))
  end.

(** [len(data)]. *)
Definition doc_len (data : json_doc) : result nat :=
  match data with
  | DList rows => Ret (length rows)
  | DStr s => Ret (String.length s)
  | DObject size => Ret size
  | DScalar => Raise TypeError
  end.

(** The entries of [data[1:]], in iteration order.  A slice of a string
    iterates over its characters; a mapping cannot be sliced (the lookup
    of a slice key fails, with [TypeError] or [KeyError] depending on the
    interpreter; the handler catches both). *)
Definition doc_tail (data : json_doc) : result (list json_row) :=
  match data with
  | DList rows => Ret (tl rows)
  | DStr s => Ret (map (fun c => RStr (String c EmptyString))
                       (tl (list_ascii_of_string s)))
  | DObject _ => Raise TypeError
  | DScalar => Raise TypeError
  end.

(** [entry[1]]. *)
Definition entry_1 (entry : json_row) : result json_cell :=
  match entry with
  | RList cells =>
      match nth_error cells 1 with
      | Some c => Ret c
      | None => Raise IndexError
      end
  | RStr s =>
      match String.get 1 s with
      | Some c => Ret (CStr (String c EmptyString))
      | None => Raise IndexError
      end
  | RObject => Raise KeyError
  | RScalar => Raise TypeError
  end.

(** [a < b]: strings in code-point order, numbers (with the booleans as
    0 and 1) by value, anything else is not orderable. *)
Definition cell_lt (a b : json_cell) : result bool :=
  let num (c : json_cell) : option Z :=
    match c with
    | CNum z => Some z
    | CBool t => Some (if t then 1 else 0)
    | _ => None
    end in
  match a, b with
  | CStr s, CStr t => Ret (String.ltb s t)
  | _, _ =>
      match num a, num b with
      | Some x, Some y => Ret (x <? y)
      | _, _ => Raise TypeError
      end
  end.

(** [timestamps.sort()]: a stable comparison sort that uses [<] only. *)
Fixpoint insert_sorted (x : json_cell) (l : list json_cell) : result (list json_cell) :=
  match l with
  | [] => Ret [x]
  | y :: l' =>
      let* smaller := cell_lt y x in
      if smaller
      then let* rest := insert_sorted x l' in Ret (y :: rest)
      else Ret (x :: l)
  end.

Fixpoint sort (l : list json_cell) : result (list json_cell) :=
  match l with
  | [] => Ret []
  | x :: l' =>
      let* sorted := sort l' in
      insert_sorted x sorted
  end.

(** [timestamps[0]] and [timestamps[-1]]. *)
Definition first_item (l : list json_cell) : result json_cell :=
  match l with
  | x :: _ => Ret x
  | [] => Raise IndexError
  end.

Definition last_item (l : list json_cell) : result json_cell :=
  match rev l with
  | x :: _ => Ret x
  | [] => Raise IndexError
  end.

(** The formatted string [f"{t[:4]}-{t[4:6]}-{t[6:8]}"] on a string. *)
Definition format_date (t : string) : string :=
  (slice 0 4 t ++ "-" ++ slice 4 6 t ++ "-" ++ slice 6 8 t)%string.

(** The same on a cell: only a string can be sliced. *)
Definition format_cell (c : json_cell) : result string :=
  match c with
  | CStr t => Ret (format_date t)
  | _ => Raise TypeError
  end.

Definition api_url : string := "https://web.archive.org/cdx/search/cdx".

Definition no_dates : option string * option string := (None, None).

(** The body of the [try] block, once the reply is known. *)
Definition lookup_body (reply : http_reply) : result (option string * option string) :=
  match reply with
  | ConnectionFailed => Raise RequestException
  | Response status_code body =>
      if negb (status_code =? 200) then Ret no_dates
      else
        let* data := match body with
                     | Some d => Ret d
                     | None => Raise JSONDecodeError
                     end in
        let* n := doc_len data in
        if (n <? 2)%nat then Ret no_dates
        else
          let* entries := doc_tail data in
          let* timestamps := mapM entry_1 entries in
          let* timestamps := sort timestamps in
          let* oldest := first_item timestamps in
          let* newest := last_item timestamps in
          let* oldest_date := format_cell oldest in
          let* newest_date := format_cell newest in
          Ret (Some oldest_date, Some newest_date)
  end.

(** [get_oldest_and_newest_archive_date(url)].  The handler
    [except Exception] catches every exception of the body; the line it
    prints is not part of the result. *)
Definition get_oldest_and_newest_archive_date (url : string)
    : prog (result (option string * option string)) :=
  if String.eqb url EmptyString then Done (Ret no_dates)
  else
    Get (mkRequest api_url [("url", url); ("output", "json")]%string 10)
        (fun reply =>
           Done (try_except (lookup_body reply) (fun _ => true) (Ret no_dates))).

(** Shapes of the strings involved. *)
Definition all_digits (s : string) : bool :=
  forallb is_digit (list_ascii_of_string s).

Definition is_timestamp14 (s : string) : bool :=
  (String.length s =? 14)%nat && all_digits s.

(** [YYYY-MM-DD]: ten characters, digits around two hyphens. *)
Definition is_date_string (s : string) : bool :=
  match list_ascii_of_string s with
  | [y1; y2; y3; y4; h1; m1; m2; h2; d1; d2] =>
      forallb is_digit [y1; y2; y3; y4; m1; m2; d1; d2]
      && Ascii.eqb h1 "-" && Ascii.eqb h2 "-"
  | _ => false
  end.

(** A reply that follows the interface of the snapshot index: a header
    row, then rows whose second column is a 14-digit timestamp. *)
Definition timestamp_of_row (r : json_row) : option string :=
  match r with
  | RList (_ :: CStr t :: _) => Some t
  | _ => None
  end.


(** *** Building the table of shops *)

(** The characters that [str.strip()] removes: the Unicode white space
    below code point 256. *)
Definition is_unicode_space (c : ascii) : bool :=
  ((9 <=? code c) && (code c <=? 13))
  || ((28 <=? code c) && (code c <=? 32))
  || (code c =? 133) || (code c =? 160).

(** Membership in the character set given to [str.strip(chars)]. *)
Definition in_chars (chars : string) (c : ascii) : bool :=
  existsb (Ascii.eqb c) (list_ascii_of_string chars).

Fixpoint lstrip_by (drop : ascii -> bool) (l : list ascii) : list ascii :=
  match l with
  | c :: l' => if drop c then lstrip_by drop l' else l
  | [] => []
  end.

(** [s.strip(...)]: the characters to drop are removed from both ends. *)
Definition strip_by (drop : ascii -> bool) (s : string) : string :=
  string_of_list_ascii
    (rev (lstrip_by drop (rev (lstrip_by drop (list_ascii_of_string s))))).

(** An element of the reply of the geographic query; only its [tags]
    mapping is read, and it may be absent. *)
Record element : Type := mkElement {
  el_tags : option (gmap string string)
}.

(** [tags.get(key, '')]. *)
Definition tag (tags : gmap string string) (key : string) : string :=
  default EmptyString (tags !! key).

(** A row of the table of shops. *)
Record poi : Type := mkPoi {
  name : string;
  address : string;
  lats : string;
  lons : string;
  website : string
}.

(** [f"{street} {housenumber}, {postcode} {city}".strip(", ").strip()]. *)
Definition make_address (street housenumber postcode city : string) : string :=
  strip_by is_unicode_space
    (strip_by (in_chars ", ")
       (street ++ " " ++ housenumber ++ ", " ++ postcode ++ " " ++ city)%string).

(** The body of the loop over [elements]. *)
Definition extract_row (el : element) : poi :=
  let tags := default (∅ : gmap string string) (el_tags el) in
  mkPoi (tag tags "name")
        (make_address (tag tags "addr:street") (tag tags "addr:housenumber")
                      (tag tags "addr:postcode") (tag tags "addr:city"))
        (tag tags "lattude")
        (tag tags "longitude")
        (tag tags "website").

(** Sequencing of computations that issue requests. *)
Fixpoint prog_bind {A B : Type} (p : prog A) (k : A -> prog B) : prog B :=
  match p with
  | Done a => k a
  | Get r c => Get r (fun reply => prog_bind (c reply) k)
  end.

(** A row with its two archive columns. *)
Record enriched : Type := mkEnriched {
  shop : poi;
  archive_oldest : option string;
  archive_newest : option string
}.

(** The loop over the rows of the table: one lookup per row, in row
    order, whose pair fills the two archive columns of the row.  An
    exception of a lookup would end the loop. *)
Fixpoint enrich (rows : list poi) : prog (result (list enriched)) :=
  match rows with
  | [] => Done (Ret [])
  | row :: rest =>
      prog_bind (get_oldest_and_newest_archive_date (website row))
        (fun looked_up =>
           match looked_up with
           | Raise e => Done (Raise e)
           | Ret (oldest, newest) =>
               prog_bind (enrich rest)
                 (fun tail =>
                    Done (match tail with
                          | Ret done => Ret (mkEnriched row oldest newest :: done)
                          | Raise e => Raise e
                          end))
           end)
  end.

(** The script from the decoded [elements] on. *)
Definition collect (elements : list element) : prog (result (list enriched)) :=
  enrich (map extract_row elements).

End Scraper.

Import Scraper.

(** * Specification-level definitions *)

Module Spec.

(** The entries of the CPI dictionary, as written in the source. *)
Definition cpi_entries : list (Z * float) :=
  [ (2015, 100.0%float); (2016, 100.9%float); (2017, 103.0%float);
    (2018, 105.1%float); (2019, 106.7%float); (2020, 108.2%float);
    (2021, 111.2%float); (2022, 120.7%float); (2023, 130.1%float);
    (2024, 134.0%float); (2025, 136.78%float) ].

(** The guard of [is_float]: null, NaN or the empty string. *)
Definition rejected_early (v : PyVal) : bool :=
  isna v || eq_empty_str v || is_None v.

(** The truth table of the price-validity tag. *)
Definition four_way (first_valid current_valid : bool) : PriceInfo :=
  match first_valid, current_valid with
  | true, true => both
  | true, false => only_first
  | false, true => only_current
  | false, false => none
  end.

(** The qualifying condition of the date partition. *)
Definition qualifying (r : Row) : Prop :=
  (exists d, First_Price_Date r = Some d /\ ts_ltb d ts_2021_01_01 = true)
  /\ (exists d, Current_Price_Date r = Some d /\ year d = 2025).

(** A timestamp with calendar fields in range. *)
Definition calendar (d : Timestamp) : Prop :=
  1 <= month d <= 12 /\ 1 <= day d <= 31 /\ 0 <= nanos d.

(** Code-point order on strings. *)
Definition str_le (s t : string) : Prop := String.leb s t = true.

(** Insertion of a string into an ascending list, and the sort built on
    it; the shape is that of [Scraper.sort] on string cells. *)
Fixpoint insert_string (x : string) (l : list string) : list string :=
  match l with
  | [] => [x]
  | y :: l' => if String.ltb y x then y :: insert_string x l' else x :: l
  end.

Fixpoint sort_strings (l : list string) : list string :=
  match l with
  | [] => []
  | x :: l' => insert_string x (sort_strings l')
  end.

(** A reply that follows the interface of the snapshot index: a JSON
    list whose rows after the header row carry a 14-digit timestamp in
    their second column.  A failed call or an undecodable body is a
    failure, not a breach of the interface. *)
Definition well_formed_row (r : json_row) : Prop :=
  exists t, timestamp_of_row r = Some t /\ is_timestamp14 t = true.

Definition conforms (reply : http_reply) : Prop :=
  match reply with
  | Response _ (Some (DList rows)) => Forall well_formed_row (tl rows)
  | Response _ (Some _) => False
  | _ => True
  end.

(** The request that the lookup of [url] issues. *)
Definition cdx_request (url : string) : request :=
  mkRequest api_url [("url", url); ("output", "json")]%string 10.


(** The number of keys equal to [k] under the comparison [cmp]. *)
Definition occurrences {K : Type} (cmp : K -> K -> comparison) (k : K) (keys : list K) : nat :=
  length (List.filter (fun k' => match cmp k k' with Eq => true | _ => false end) keys).

(** Strictly ascending keys. *)
Definition ascending {K : Type} (cmp : K -> K -> comparison) (groups : list (K * nat)) : Prop :=
  StronglySorted (fun a b => cmp (fst a) (fst b) = Lt) groups.

(** The number of rows that carry the tag [t]. *)
Definition tag_count (t : PriceInfo) (tags : list PriceInfo) : nat :=
  occurrences tag_compare t tags.

(** The number of rows that carry a value in [offers repair]. *)
Definition rows_with_key (df : list Row) : nat :=
  length (List.filter (fun r => match offers_repair r with Some _ => true | None => false end) df).

(** The number of rows whose [offers repair] value is [k]. *)
Definition rows_of (k : string) (df : list Row) : nat :=
  length (List.filter (fun r => match offers_repair r with
                                | Some k' => String.eqb k k'
                                | None => false
                                end) df).

(** A website that leads to a request. *)
Definition has_website (p : poi) : bool := negb (String.eqb (website p) EmptyString).

(** A pair of archive columns is all or nothing. *)
Definition all_or_nothing (e : enriched) : Prop :=
  (archive_oldest e = None /\ archive_newest e = None)
  \/ (exists o n, archive_oldest e = Some o /\ archive_newest e = Some n).

(** A text without white space at either end. *)
Definition trimmed (s : string) : Prop :=
  match list_ascii_of_string s with
  | [] => True
  | c :: _ => is_unicode_space c = false
  end
  /\ match rev (list_ascii_of_string s) with
     | [] => True
     | c :: _ => is_unicode_space c = false
     end.


(** The number of key pairs equal to [(k, t)] among the rows that have a
    value. *)
Definition pair_occurrences (k : string) (t : PriceInfo) (df : list Row)
    (tags : list PriceInfo) : nat :=
  occurrences pair_compare (k, t) (present_pairs df tags).

Definition same_tag (t u : PriceInfo) : bool :=
  match t, u with
  | both, both | only_first, only_first | only_current, only_current | none, none => true
  | _, _ => false
  end.

(** The number of rows with the [offers repair] value [k] and the tag
    [t], counted on the table itself. *)
Definition rows_of_pair (k : string) (t : PriceInfo) (df : list Row)
    (tags : list PriceInfo) : nat :=
  length (List.filter (fun rt => match offers_repair (fst rt) with
                                 | Some k' => String.eqb k k' && same_tag t (snd rt)
                                 | None => false
                                 end) (combine df tags)).

Definition tag_eqb (t u : PriceInfo) : bool :=
  match tag_compare t u with
  | Eq => true
  | _ => false
  end.

Definition all_tags : list PriceInfo := [both; only_first; only_current; none].




(** What a cell of a derived column holds: null or a float. *)
Definition null_or_float (v : PyVal) : Prop := v = VNone \/ exists x, v = VFloat x.

End Spec.

Import Spec.

(** * Properties *)

(** ** Binary64 facts *)

Lemma digits2_pos_shift52 (m : positive) :
  Zpos (digits2_pos (4503599627370496 * m)) = Zpos (digits2_pos m) + 52.
Proof.
  change (4503599627370496 * m)%positive with (Pos.iter xO m 52).
  cbn [Pos.iter digits2_pos]. rewrite !Pos2Z.inj_succ. lia.
Qed.

(** Multiplying a valid binary64 number by one rounds to itself. *)
Lemma SF64mul_one_r (x : spec_float) :
  valid_binary x = true ->
  SF64mul x (S754_finite false 4503599627370496 (-52)) = x.
Proof.
  destruct x as [s|s| |s m e];
    cbn [SF64mul SFmul valid_binary SpecFloat.valid_binary];
    try (intros _; now rewrite ?xorb_false_r).
  unfold bounded, canonical_mantissa. intros Hb.
  apply andb_true_iff in Hb as [Hc He]. apply Z.eqb_eq in Hc.
  rewrite xorb_false_r, Pos.mul_comm.
  unfold binary_round_aux, shr_fexp.
  cbn [Zdigits2]. rewrite digits2_pos_shift52.
  replace (Z.pos (digits2_pos m) + 52 + (e + -52))
    with (Z.pos (digits2_pos m) + e) by lia.
  rewrite Hc. replace (e - (e + -52)) with 52 by lia.
  change (4503599627370496 * m)%positive with (Pos.iter xO m 52).
  cbn [shr shr_record_of_loc Pos.iter SpecFloat.iter_pos shr_1 shr_m orb
       loc_of_shr_record round_nearest_even Zdigits2].
  replace (e + -52 + 52) with e by lia.
  rewrite Hc, Z.sub_diag. cbn [shr shr_m]. now rewrite He.
Qed.

Lemma mul_one_r (x : float) : (x * 1)%float = x.
Proof.
  apply Prim2SF_inj. rewrite mul_spec.
  change (Prim2SF 1) with (S754_finite false 4503599627370496 (-52)).
  apply SF64mul_one_r, Prim2SF_valid.
Qed.

(** ** The CPI table *)

Lemma cpi_lookup_entry (y : Z) (v : float) :
  cpi_2015_base !! y = Some v -> In (y, v) cpi_entries.
Proof.
  intros H. apply elem_of_list_to_map_2 in H. now apply list_elem_of_In.
Qed.

Ltac cpi_cases H :=
  apply cpi_lookup_entry in H; unfold cpi_entries in H; simpl in H;
  repeat (destruct H as [H | H]; [injection H as <- <- | ]); [ .. | destruct H ].

(** The keys of the table are the years 2015 to 2025. *)
Lemma cpi_keys (y : Z) : is_Some (cpi_2015_base !! y) <-> 2015 <= y <= 2025.
Proof.
  split.
  - intros [v H]. cpi_cases H; lia.
  - intros H.
    assert (y = 2015 \/ y = 2016 \/ y = 2017 \/ y = 2018 \/ y = 2019 \/ y = 2020
            \/ y = 2021 \/ y = 2022 \/ y = 2023 \/ y = 2024 \/ y = 2025) as Hy by lia.
    repeat (destruct Hy as [-> | Hy]; [vm_compute; eauto | ]).
    subst y. vm_compute; eauto.
Qed.

Lemma cpi_missing (y : Z) :
  cpi_2015_base !! y = None <-> ~ (2015 <= y <= 2025).
Proof.
  rewrite <- cpi_keys, <- eq_None_not_Some. reflexivity.
Qed.

(** No index of the table is zero, so the ratio never raises. *)
Lemma cpi_nonzero (y : Z) (v : float) :
  cpi_2015_base !! y = Some v -> (v =? 0)%float = false.
Proof. intros H. cpi_cases H; reflexivity. Qed.

(** The ratio of an index to itself is exactly one. *)
Lemma cpi_self_ratio (y : Z) (v : float) :
  cpi_2015_base !! y = Some v -> (v / v)%float = 1%float.
Proof. intros H. cpi_cases H; reflexivity. Qed.

(** ** The result type *)

Lemma mapM_raises {A B : Type} (f : A -> result B) (l : list A) (x : A) :
  In x l -> raises (f x) -> raises (mapM f l).
Proof.
  induction l as [| y l IH]; simpl; [tauto |].
  intros [-> | Hin] Hx.
  - destruct Hx as [e ->]. now exists e.
  - destruct (f y) as [b | e]; simpl; [| now exists e].
    destruct (IH Hin Hx) as [e ->]. now exists e.
Qed.

(** ** Inflation adjustment *)

Lemma adjust_for_inflation_in_table (p : PyVal) (x b t : float) (base_year target_year : Z) :
  as_float p = Ret x ->
  cpi_2015_base !! base_year = Some b ->
  cpi_2015_base !! target_year = Some t ->
  adjust_for_inflation p base_year target_year cpi_2015_base
  = Ret (VFloat (round2 (x * (t / b)))).
Proof.
  intros Hp Hb Ht. unfold adjust_for_inflation, getitem, mul_float, float_div.
  rewrite Hb, Ht. cbn [bind]. rewrite (cpi_nonzero _ _ Hb). cbn [bind].
  rewrite Hp. reflexivity.
Qed.

Lemma adjust_for_inflation_missing (p : PyVal) (base_year target_year : Z) :
  cpi_2015_base !! base_year = None \/ cpi_2015_base !! target_year = None ->
  adjust_for_inflation p base_year target_year cpi_2015_base = Ret VNone.
Proof.
  intros H. unfold adjust_for_inflation, getitem.
  destruct (cpi_2015_base !! base_year) as [b |] eqn:Hb; [| reflexivity].
  destruct H as [H | H]; [discriminate |]. now rewrite H.
Qed.

(** C1.  With both years among the keys 2015..2025 of the fixed CPI table,
    [adjust_for_inflation] returns the price times the ratio
    CPI(target_year) / CPI(base_year), rounded to two decimals; with either
    year absent from the table it returns [None] and raises nothing.  The
    price is a number (a float, or an integer or boolean promoted to
    float), and the product is evaluated as the code groups it. *)
Theorem adjust_for_inflation_spec (p : PyVal) (base_year target_year : Z) :
  (is_Some (cpi_2015_base !! base_year) /\ is_Some (cpi_2015_base !! target_year)
   <-> 2015 <= base_year <= 2025 /\ 2015 <= target_year <= 2025)
  /\ (forall x b t,
        as_float p = Ret x ->
        cpi_2015_base !! base_year = Some b ->
        cpi_2015_base !! target_year = Some t ->
        adjust_for_inflation p base_year target_year cpi_2015_base
        = Ret (VFloat (round2 (x * (t / b)))))
  /\ (~ (2015 <= base_year <= 2025) \/ ~ (2015 <= target_year <= 2025) ->
      adjust_for_inflation p base_year target_year cpi_2015_base = Ret VNone).
Proof.
  split; [| split].
  - now rewrite !cpi_keys.
  - intros x b t. apply adjust_for_inflation_in_table.
  - intros H. apply adjust_for_inflation_missing.
    rewrite !cpi_missing. exact H.
Qed.

Lemma adjust_for_inflation_spec_witness :
  adjust_for_inflation (VInt 100) 2019 2025 cpi_2015_base = Ret (VFloat 128.19)
  /\ adjust_for_inflation (VFloat 100) 2014 2025 cpi_2015_base = Ret VNone.
Proof.
  split.
  - destruct (adjust_for_inflation_spec (VInt 100) 2019 2025) as (_ & H & _).
    exact (H 100%float 106.7%float 136.78%float eq_refl eq_refl eq_refl).
  - destruct (adjust_for_inflation_spec (VFloat 100) 2014 2025) as (_ & _ & H).
    apply H. left. lia.
Defined.

(** With the same base and target year the result is the price rounded to
    two decimals. *)
Lemma adjust_same_year_rounds (p : PyVal) (x : float) (y : Z) :
  2015 <= y <= 2025 -> as_float p = Ret x ->
  adjust_for_inflation p y y cpi_2015_base = Ret (VFloat (round2 x)).
Proof.
  intros Hy Hp. apply cpi_keys in Hy as [v Hv].
  rewrite (adjust_for_inflation_in_table p x v v y y Hp Hv Hv).
  now rewrite (cpi_self_ratio y v Hv), mul_one_r.
Qed.

Lemma VFloat_inj (x y : float) : Ret (VFloat x) = Ret (VFloat y) -> x = y.
Proof. intros H. now injection H. Qed.

(** C8, as stated, fails: the price 12.345 adjusted from 2020 to 2020 comes
    back as 12.35. *)
Lemma adjust_same_year_counterexample :
  (0 <? 12.345)%float = true
  /\ is_Some (cpi_2015_base !! 2020)
  /\ adjust_for_inflation (VFloat 12.345) 2020 2020 cpi_2015_base = Ret (VFloat 12.35)
  /\ (12.35 =? 12.345)%float = false
  /\ adjust_for_inflation (VFloat 12.345) 2020 2020 cpi_2015_base <> Ret (VFloat 12.345).
Proof.
  repeat split; try reflexivity.
  - now apply cpi_keys.
  - assert (adjust_for_inflation (VFloat 12.345) 2020 2020 cpi_2015_base
            = Ret (VFloat 12.35)) as -> by reflexivity.
    intros H. apply VFloat_inj in H.
    assert ((12.35 =? 12.345)%float = true) as E by (rewrite H; reflexivity).
    discriminate E.
Qed.

(** C8, amended.  For every numeric price and every year of the CPI table,
    the adjustment with base year and target year both equal to that year
    returns the price rounded to two decimals; the price comes back
    unchanged exactly when rounding to two decimals leaves it unchanged. *)
Theorem adjust_same_year (p : PyVal) (x : float) (y : Z) :
  2015 <= y <= 2025 -> as_float p = Ret x ->
  adjust_for_inflation p y y cpi_2015_base = Ret (VFloat (round2 x))
  /\ (adjust_for_inflation p y y cpi_2015_base = Ret (VFloat x) <-> round2 x = x).
Proof.
  intros Hy Hp. rewrite (adjust_same_year_rounds p x y Hy Hp).
  split; [reflexivity |]. split.
  - apply VFloat_inj.
  - now intros ->.
Qed.

Lemma adjust_same_year_witness :
  adjust_for_inflation (VFloat 99.9) 2020 2020 cpi_2015_base = Ret (VFloat 99.9)
  /\ adjust_for_inflation (VInt 100) 2025 2025 cpi_2015_base = Ret (VFloat 100).
Proof.
  split.
  - destruct (adjust_same_year (VFloat 99.9) 99.9 2020) as [H _];
      [lia | reflexivity | exact H].
  - destruct (adjust_same_year (VInt 100) 100 2025) as [H _];
      [lia | reflexivity | exact H].
Defined.

(** ** The float-validity predicate *)

Lemma mapM_Forall2 {A B : Type} (f : A -> result B) (l : list A) (out : list B) :
  mapM f l = Ret out -> Forall2 (fun x y => f x = Ret y) l out.
Proof.
  revert out. induction l as [| x l IH]; simpl; intros out H.
  - injection H as <-. constructor.
  - destruct (f x) as [b | e] eqn:Hx; simpl in H; [| discriminate].
    destruct (mapM f l) as [bs | e]; simpl in H; [| discriminate].
    injection H as <-. constructor; [exact Hx | now apply IH].
Qed.

Lemma mapM_compose {A B C : Type} (f : B -> result C) (g : A -> B) (l : list A) :
  mapM (fun x => f (g x)) l = mapM f (map g l).
Proof.
  induction l as [| x l IH]; simpl; [reflexivity |]. now rewrite IH.
Qed.

Lemma rejected_early_false (v : PyVal) :
  rejected_early v = false <-> isna v = false /\ v <> VStr EmptyString.
Proof.
  unfold rejected_early. destruct v as [| b | z | f | s]; simpl;
    rewrite ?orb_false_r; try (split; [intros _; split; [reflexivity | discriminate] | reflexivity]).
  - split; [discriminate | intros [H _]; discriminate H].
  - split; [intros ->; split; [reflexivity | discriminate] | now intros [-> _]].
  - destruct (String.eqb_spec s EmptyString) as [-> | Hne]; split; try discriminate.
    + intros [_ H]. now contradiction H.
    + intros _. split; [reflexivity | congruence].
    + reflexivity.
Qed.

(** [is_float] answers true exactly on the values that are not null, not
    the empty string, and accepted by [float()]. *)
Lemma is_float_true_iff (v : PyVal) :
  is_float v = Ret true
  <-> isna v = false /\ v <> VStr EmptyString /\ returns (py_float v).
Proof.
  unfold is_float. fold (rejected_early v).
  destruct (rejected_early v) eqn:Hr.
  - simpl. split; [discriminate |]. intros (H1 & H2 & _).
    assert (rejected_early v = false) as E by now apply rejected_early_false.
    congruence.
  - apply rejected_early_false in Hr as [H1 H2].
    destruct (py_float v) as [x | e]; simpl.
    + split; [intros _; repeat split; [assumption .. | now exists x] | reflexivity].
    + split.
      * destruct e; simpl; discriminate.
      * intros (_ & _ & [x Hx]). discriminate Hx.
Qed.

(** The only exception that [float()] raises past the handler of
    [is_float] is the overflow of an integer. *)
Lemma is_float_raise (v : PyVal) (e : exn) :
  is_float v = Raise e ->
  e = OverflowError /\ exists z, v = VInt z /\ float_of_int z = Raise OverflowError.
Proof.
  unfold is_float. destruct (isna v || eq_empty_str v || is_None v); [discriminate |].
  destruct v as [| b | z | f | s]; simpl; try discriminate.
  - destruct (float_of_int z) as [x | e'] eqn:Hz; simpl; [discriminate |].
    assert (e' = OverflowError) as ->.
    { unfold float_of_int in Hz.
      destruct (binary_normalize prec emax z 0 false); try discriminate.
      now injection Hz as <-. }
    simpl. intros H. injection H as <-. split; [reflexivity |]. now exists z.
  - destruct (float_of_string s); simpl; discriminate.
Qed.

Lemma is_float_returns (v : PyVal) :
  (forall z, v = VInt z -> returns (float_of_int z)) -> returns (is_float v).
Proof.
  intros Hz. destruct (is_float v) as [b | e] eqn:H; [now exists b |].
  apply is_float_raise in H as (_ & z & -> & Hr).
  destruct (Hz z eq_refl) as [x Hx]. congruence.
Qed.

(** C6 fails on the code for integers beyond the range of a float:
    [float(10**400)] raises [OverflowError], which the handler of
    [is_float] (for [ValueError] and [TypeError]) lets through.  On the
    inputs named by the claim the predicate answers false. *)
Theorem is_float_huge_int_raises :
  is_float (VInt (10 ^ 400)) = Raise OverflowError
  /\ is_ValueError_or_TypeError OverflowError = false
  /\ is_float VNone = Ret false
  /\ is_float (VStr EmptyString) = Ret false
  /\ is_float (VFloat nan) = Ret false
  /\ is_float (VStr "abc") = Ret false
  /\ is_float (VStr "12.5") = Ret true.
Proof. repeat split; vm_compute; reflexivity. Qed.

(** ** The price-validity tag *)

Lemma price_info_four_way (fv cv : bool) : price_info fv cv = four_way fv cv.
Proof. now destruct fv, cv. Qed.

Lemma Forall2_tags {A : Type} (P Q : A -> bool -> Prop) (l : list A) (a b : list bool) :
  Forall2 P l a -> Forall2 Q l b ->
  Forall2 (fun x t => exists u v, P x u /\ Q x v /\ t = four_way u v) l
          (map (fun fc => price_info (fst fc) (snd fc)) (combine a b)).
Proof.
  intros Ha. revert b. induction Ha as [| x u l a Hx Ha IH]; intros b Hb.
  - constructor.
  - inversion Hb as [| x' v l' b' Hv Hb']; subst. simpl. constructor.
    + exists u, v. now rewrite price_info_four_way.
    + now apply IH.
Qed.

(** C7.  The tag of every row is the four-way function of its two
    validity flags; the column depends on the two price columns only, so
    not on [offers repair]; a first price "12.5" with a current price "abc"
    is tagged [only_first]. *)
Theorem price_info_spec :
  (forall fv cv, price_info fv cv = four_way fv cv)
  /\ (forall (df : list Row) (tags : list PriceInfo),
        price_info_column df = Ret tags ->
        Forall2 (fun r tag =>
                   exists fv cv,
                     is_float (First_Price r) = Ret fv
                     /\ is_float (Current_Price r) = Ret cv
                     /\ tag = four_way fv cv) df tags)
  /\ (forall df df' : list Row,
        map First_Price df = map First_Price df' ->
        map Current_Price df = map Current_Price df' ->
        price_info_column df = price_info_column df')
  /\ (forall o d1 d2,
        price_info_column [mkRow o (VStr "12.5") (VStr "abc") d1 d2] = Ret [only_first]).
Proof.
  split; [exact price_info_four_way | split; [| split]].
  - intros df tags. unfold price_info_column.
    destruct (mapM _ df) as [firsts | e] eqn:Hf; simpl; [| discriminate].
    destruct (mapM (fun r => is_float (Current_Price r)) df) as [currents | e] eqn:Hc;
      simpl; [| discriminate].
    intros H. injection H as <-.
    apply mapM_Forall2 in Hf, Hc.
    exact (Forall2_tags _ _ df firsts currents Hf Hc).
  - intros df df' H1 H2. unfold price_info_column.
    rewrite (mapM_compose is_float First_Price df), (mapM_compose is_float First_Price df').
    rewrite (mapM_compose is_float Current_Price df), (mapM_compose is_float Current_Price df').
    now rewrite H1, H2.
  - intros o d1 d2. reflexivity.
Qed.

Lemma price_info_spec_witness :
  price_info_column [mkRow (Some "Yes"%string) (VStr "12.5") (VStr "abc") None None]
  = price_info_column [mkRow (Some "No"%string) (VStr "12.5") (VStr "abc") None None]
  /\ Forall2 (fun r tag =>
                exists fv cv,
                  is_float (First_Price r) = Ret fv
                  /\ is_float (Current_Price r) = Ret cv
                  /\ tag = four_way fv cv)
             [mkRow (Some "Yes"%string) (VStr "12.5") (VStr "abc") None None]
             [only_first].
Proof.
  destruct price_info_spec as (_ & H2 & H3 & _). split.
  - apply H3; reflexivity.
  - apply H2. reflexivity.
Defined.

(** ** The price increase *)

Lemma eqb_zero_not_nan (z : float) : (z =? 0)%float = true -> is_nan z = false.
Proof.
  unfold is_nan. rewrite !FloatAxioms.eqb_spec.
  change (Prim2SF 0) with (S754_zero false).
  destruct (Prim2SF z) as [s | s | | s m e]; simpl; try discriminate.
  - reflexivity.
  - now destruct s.
  - now destruct s.
Qed.

Lemma is_float_VFloat (a : float) : is_float (VFloat a) = Ret (negb (is_nan a)).
Proof. unfold is_float. simpl. now destruct (is_nan a). Qed.

Lemma is_float_true_value (v : PyVal) :
  is_float v = Ret true -> exists x, py_float v = Ret x.
Proof. intros H. now apply is_float_true_iff in H as (_ & _ & H). Qed.

(** With both operands valid, the column holds the value of the Python
    expression [round((c - a) / a * 100, 2)]. *)
Lemma price_increase_valid (current adjusted : PyVal) (c a : float) :
  is_float current = Ret true -> is_float adjusted = Ret true ->
  py_float current = Ret c -> py_float adjusted = Ret a ->
  price_increase current adjusted
  = (let* q := float_div (c - a) a in Ret (VFloat (round2 (q * 100)))).
Proof.
  intros H1 H2 Hc Ha. unfold price_increase.
  rewrite H1. cbn [bind]. rewrite H2. cbn [bind]. rewrite Hc, Ha. cbn [bind].
  now destruct (float_div (c - a) a).
Qed.


(** A zero adjusted price under a valid current price is a division by
    zero. *)
Lemma price_increase_zero_divisor (current : PyVal) (z : float) :
  is_float current = Ret true -> (z =? 0)%float = true ->
  price_increase current (VFloat z) = Raise ZeroDivisionError.
Proof.
  intros H1 Hz. destruct (is_float_true_value current H1) as [c Hc].
  rewrite (price_increase_valid current (VFloat z) c z H1); try assumption.
  - unfold float_div. now rewrite Hz.
  - now rewrite is_float_VFloat, (eqb_zero_not_nan z Hz).
  - reflexivity.
Qed.

(** C2 fails on the code.  A qualifying row with first price 0 has the
    adjusted price 0.0, which passes [is_float]; with a valid current price
    the quotient is a Python float division by zero, so the lambda raises
    [ZeroDivisionError] and the column computation raises with it: no null
    result is produced (and no infinity or NaN either). *)
Theorem zero_adjusted_price_raises :
  let r := mkRow (Some "Yes"%string) (VInt 0) (VInt 130)
                 (Some (mkTimestamp 2019 6 1 0)) (Some (mkTimestamp 2025 2 10 0)) in
  starts_with_yes r = true
  /\ qualifies r = true
  /\ first_price_adjusted r = Ret (VFloat 0)
  /\ is_float (Current_Price r) = Ret true
  /\ is_float (VFloat 0) = Ret true
  /\ price_increase (Current_Price r) (VFloat 0) = Raise ZeroDivisionError
  /\ analyse [r] = Raise ZeroDivisionError.
Proof. repeat split; vm_compute; reflexivity. Qed.


(** The worked example of the specification: 100 in 2019 is 128.19 in 2025,
    and a current price of 130 is an increase of 1.41 percent. *)
Example end_to_end_example :
  let r := mkRow (Some "Yes, full service"%string) (VInt 100) (VInt 130)
                 (Some (mkTimestamp 2019 6 1 0)) (Some (mkTimestamp 2025 2 10 0)) in
  subset_a (yes_subset [r]) = [r]
  /\ analyse [r] = Ret ([VFloat 128.19], [VFloat 1.41]).
Proof. split; reflexivity. Qed.


(** ** The date partition *)

Lemma qualifies_iff (r : Row) : qualifies r = true <-> qualifying r.
Proof.
  unfold qualifies, qualifying, condition_first_before_2021, condition_current_in_2025.
  rewrite andb_true_iff. split.
  - intros [H1 H2].
    destruct (First_Price_Date r) as [d1 |]; [| discriminate].
    destruct (Current_Price_Date r) as [d2 |]; [| discriminate].
    apply Z.eqb_eq in H2. split; [now exists d1 | now exists d2].
  - intros [(d1 & -> & H1) (d2 & -> & H2)].
    split; [exact H1 | now apply Z.eqb_eq].
Qed.

(** On calendar dates, "before 2021-01-01" is "in a year before 2021". *)
Lemma before_2021_year (d : Timestamp) :
  calendar d -> (ts_ltb d ts_2021_01_01 = true <-> year d < 2021).
Proof.
  intros (Hm & Hd & Hn). unfold ts_ltb, ts_2021_01_01. cbn [year month day nanos].
  split.
  - intros H. apply orb_true_iff in H as [H | H]; [now apply Z.ltb_lt in H |].
    apply andb_true_iff in H as [_ H].
    apply orb_true_iff in H as [H | H]; [apply Z.ltb_lt in H; lia |].
    apply andb_true_iff in H as [_ H].
    apply orb_true_iff in H as [H | H]; [apply Z.ltb_lt in H; lia |].
    apply andb_true_iff in H as [_ H]. apply Z.ltb_lt in H. lia.
  - intros H. apply orb_true_iff. left. now apply Z.ltb_lt.
Qed.

Lemma filter_split_perm {A : Type} (f : A -> bool) (l : list A) :
  Permutation l (List.filter f l ++ List.filter (fun x => negb (f x)) l).
Proof.
  induction l as [| x l IH]; simpl; [constructor |].
  destruct (f x); simpl.
  - now constructor.
  - eapply perm_trans; [apply perm_skip, IH | apply Permutation_middle].
Qed.

(** C5.  A row of the "yes" subset is in the qualifying partition exactly
    when its first price date is before 2021-01-01 and its current price
    date is in 2025, and in the rest partition exactly when it is not; a
    row with a missing date is in the rest; the two partitions are
    disjoint and together are the subset. *)
Theorem partition_spec (df : list Row) :
  let yes := yes_subset df in
  (forall r, In r yes ->
     (In r (subset_a yes) <-> qualifying r)
     /\ (In r (subset_b yes) <-> ~ qualifying r))
  /\ (forall r, In r (subset_a yes) -> In r (subset_b yes) -> False)
  /\ Permutation yes (subset_a yes ++ subset_b yes)
  /\ (length (subset_a yes) + length (subset_b yes) = length yes)%nat
  /\ (forall r, In r yes ->
       First_Price_Date r = None \/ Current_Price_Date r = None ->
       In r (subset_b yes))
  /\ (forall r d, In r yes ->
       First_Price_Date r = Some d -> calendar d -> 2021 <= year d ->
       In r (subset_b yes)).
Proof.
  intros yes. unfold subset_a, subset_b.
  assert (forall r, In r yes ->
            (In r (List.filter qualifies yes) <-> qualifying r)
            /\ (In r (List.filter (fun r => negb (qualifies r)) yes) <-> ~ qualifying r))
    as Hiff.
  { intros r Hin. rewrite !filter_In, <- qualifies_iff.
    destruct (qualifies r); simpl; intuition congruence. }
  split; [exact Hiff |]. split; [| split; [| split; [| split]]].
  - intros r Ha Hb. apply filter_In in Ha as [_ Ha]. apply filter_In in Hb as [_ Hb].
    rewrite Ha in Hb. discriminate.
  - apply filter_split_perm.
  - rewrite <- length_app. symmetry. apply Permutation_length, filter_split_perm.
  - intros r Hin Hnone. apply (Hiff r Hin).
    intros [(d1 & E1 & _) (d2 & E2 & _)]. destruct Hnone; congruence.
  - intros r d Hin Hd Hcal Hy. apply (Hiff r Hin).
    intros [(d1 & E1 & Hlt) _]. rewrite Hd in E1. injection E1 as <-.
    apply (before_2021_year d Hcal) in Hlt. lia.
Qed.

Lemma partition_spec_witness :
  let r1 := mkRow (Some "Yes"%string) (VInt 100) (VInt 130)
                  (Some (mkTimestamp 2019 6 1 0)) (Some (mkTimestamp 2025 2 10 0)) in
  let r2 := mkRow (Some "yes, on request"%string) (VInt 100) (VInt 130)
                  (Some (mkTimestamp 2022 1 1 0)) (Some (mkTimestamp 2025 2 10 0)) in
  let r3 := mkRow (Some "YES"%string) (VInt 100) (VInt 130)
                  None (Some (mkTimestamp 2025 2 10 0)) in
  let r4 := mkRow (Some "No"%string) (VInt 100) (VInt 130)
                  (Some (mkTimestamp 2019 6 1 0)) (Some (mkTimestamp 2025 2 10 0)) in
  yes_subset [r1; r2; r3; r4] = [r1; r2; r3]
  /\ (In r1 (subset_a (yes_subset [r1; r2; r3; r4])) <-> qualifying r1)
  /\ In r2 (subset_b (yes_subset [r1; r2; r3; r4]))
  /\ In r3 (subset_b (yes_subset [r1; r2; r3; r4])).
Proof.
  intros r1 r2 r3 r4.
  destruct (partition_spec [r1; r2; r3; r4]) as (H1 & _ & _ & _ & H5 & H6).
  split; [reflexivity | split; [| split]].
  - apply (H1 r1). simpl. now left.
  - apply (H6 r2 (mkTimestamp 2022 1 1 0)).
    + simpl. right. now left.
    + reflexivity.
    + unfold calendar. simpl. lia.
    + simpl. lia.
  - apply (H5 r3).
    + simpl. right. right. now left.
    + now left.
Defined.


(** ** A string price in the qualifying subset *)

Lemma string_price_TypeError (s : string) (base_year target_year : Z) :
  2015 <= base_year <= 2025 -> 2015 <= target_year <= 2025 ->
  adjust_for_inflation (VStr s) base_year target_year cpi_2015_base = Raise TypeError.
Proof.
  intros Hb Ht.
  apply cpi_keys in Hb as [b Hb]. apply cpi_keys in Ht as [t Ht].
  unfold adjust_for_inflation, getitem, float_div.
  rewrite Hb, Ht. cbn [bind]. now rewrite (cpi_nonzero _ _ Hb).
Qed.

(** The first price date of a qualifying row lies in a year up to 2021
    (up to 2020 on calendar dates). *)
Lemma subset_a_year (yes : list Row) (r : Row) (d : Timestamp) :
  In r (subset_a yes) -> First_Price_Date r = Some d -> year d <= 2021.
Proof.
  unfold subset_a. intros Hin Hd. apply filter_In in Hin as [_ Hq].
  apply qualifies_iff in Hq as [(d' & Hd' & Hlt) _].
  rewrite Hd in Hd'. injection Hd' as <-.
  unfold ts_ltb, ts_2021_01_01 in Hlt. cbn [year month day nanos] in Hlt.
  apply orb_true_iff in Hlt as [H | H]; [apply Z.ltb_lt in H; lia |].
  apply andb_true_iff in H as [H _]. apply Z.eqb_eq in H. lia.
Qed.

(** On a subset with rows the derived columns are the two [apply] calls. *)
Lemma analyse_rows (rows : list Row) :
  rows <> [] ->
  analyse rows
  = (let* adjusted := mapM first_price_adjusted rows in
     let* increases :=
       mapM (fun ra => price_increase (Current_Price (fst ra)) (snd ra))
            (combine rows adjusted) in
     Ret (adjusted, increases)).
Proof. destruct rows; [now intros H | reflexivity]. Qed.

(** C9.  The handler of [adjust_for_inflation] catches [KeyError] and
    nothing else: with a string as price and both years in the CPI table
    the call raises [TypeError] instead of returning [None], and a
    qualifying row with such a price, whose first price year is in the
    table, makes the computation of the derived columns raise. *)
Theorem string_price_raises (s : string) :
  (forall base_year target_year,
     2015 <= base_year <= 2025 -> 2015 <= target_year <= 2025 ->
     adjust_for_inflation (VStr s) base_year target_year cpi_2015_base
     = Raise TypeError)
  /\ (forall e, is_KeyError e = true <-> e = KeyError)
  /\ (forall (yes : list Row) (r : Row) (d : Timestamp),
        In r (subset_a yes) ->
        First_Price r = VStr s ->
        First_Price_Date r = Some d ->
        2015 <= year d ->
        first_price_adjusted r = Raise TypeError
        /\ raises (analyse (subset_a yes))).
Proof.
  split; [exact (string_price_TypeError s) | split].
  - intros e. destruct e; simpl; split; congruence.
  - intros yes r d Hin Hp Hd Hy.
    pose proof (subset_a_year yes r d Hin Hd) as Hy'.
    assert (first_price_adjusted r = Raise TypeError) as Hr.
    { unfold first_price_adjusted. rewrite Hd, Hp.
      apply string_price_TypeError; lia. }
    split; [exact Hr |].
    rewrite analyse_rows by (intros E; rewrite E in Hin; exact Hin).
    destruct (mapM_raises first_price_adjusted (subset_a yes) r Hin) as [e He].
    + now exists TypeError.
    + exists e. now rewrite He.
Qed.

Lemma string_price_raises_witness :
  let r := mkRow (Some "yes"%string) (VStr "12,50") (VFloat 20)
                 (Some (mkTimestamp 2019 6 1 0)) (Some (mkTimestamp 2025 2 10 0)) in
  adjust_for_inflation (VStr "12,50") 2019 2025 cpi_2015_base = Raise TypeError
  /\ first_price_adjusted r = Raise TypeError
  /\ raises (analyse (subset_a [r])).
Proof.
  intros r.
  destruct (string_price_raises "12,50") as (H1 & _ & H2).
  split; [apply H1; lia |].
  apply (H2 [r] r (mkTimestamp 2019 6 1 0)).
  - left. reflexivity.
  - reflexivity.
  - reflexivity.
  - simpl. lia.
Defined.


(** ** Code-point order on strings *)

Lemma string_compare_refl (s : string) : String.compare s s = Eq.
Proof.
  induction s as [| a s IH]; simpl; [reflexivity |].
  unfold Ascii.compare. now rewrite N.compare_refl.
Qed.

Lemma str_le_refl (s : string) : str_le s s.
Proof. unfold str_le, String.leb. now rewrite string_compare_refl. Qed.

Lemma str_le_trans (a b c : string) : str_le a b -> str_le b c -> str_le a c.
Proof.
  unfold str_le, String.leb. revert b c.
  induction a as [| x a IH]; intros [| y b] [| z c]; simpl; try congruence.
  unfold Ascii.compare.
  destruct (N.compare_spec (N_of_ascii x) (N_of_ascii y)) as [Hxy | Hxy | Hxy];
    destruct (N.compare_spec (N_of_ascii y) (N_of_ascii z)) as [Hyz | Hyz | Hyz];
    try congruence;
    destruct (N.compare_spec (N_of_ascii x) (N_of_ascii z)) as [Hxz | Hxz | Hxz];
    try congruence; try lia.
  apply IH.
Qed.

Lemma ltb_true_str_le (y x : string) : String.ltb y x = true -> str_le y x.
Proof.
  unfold str_le, String.ltb, String.leb. now destruct (String.compare y x).
Qed.

Lemma ltb_false_str_le (y x : string) : String.ltb y x = false -> str_le x y.
Proof.
  unfold str_le, String.ltb, String.leb. rewrite (String.compare_antisym y x).
  now destruct (String.compare x y).
Qed.

(** ** Sorting the timestamps *)

Lemma insert_string_perm (x : string) (l : list string) :
  Permutation (x :: l) (insert_string x l).
Proof.
  induction l as [| y l IH]; simpl; [reflexivity |].
  destruct (String.ltb y x); [| reflexivity].
  eapply perm_trans; [apply perm_swap | now apply perm_skip].
Qed.

Lemma sort_strings_perm (l : list string) : Permutation l (sort_strings l).
Proof.
  induction l as [| x l IH]; simpl; [constructor |].
  eapply perm_trans; [apply perm_skip, IH | apply insert_string_perm].
Qed.

Lemma insert_string_sorted (x : string) (l : list string) :
  StronglySorted str_le l -> StronglySorted str_le (insert_string x l).
Proof.
  induction 1 as [| y l Hs IH Hall]; simpl.
  - constructor; constructor.
  - destruct (String.ltb y x) eqn:Hlt.
    + constructor; [exact IH |].
      apply (Permutation_Forall (insert_string_perm x l)).
      constructor; [now apply ltb_true_str_le | exact Hall].
    + apply ltb_false_str_le in Hlt.
      constructor; [now constructor |].
      constructor; [exact Hlt |].
      eapply List.Forall_impl; [| exact Hall].
      intros z Hz. now apply (str_le_trans x y z).
Qed.

Lemma sort_strings_sorted (l : list string) : StronglySorted str_le (sort_strings l).
Proof.
  induction l as [| x l IH]; simpl; [constructor | now apply insert_string_sorted].
Qed.

(** On string cells the sort of the script is the sort of strings. *)
Lemma insert_sorted_strings (x : string) (l : list string) :
  insert_sorted (CStr x) (map CStr l) = Ret (map CStr (insert_string x l)).
Proof.
  induction l as [| y l IH]; simpl; [reflexivity |].
  destruct (String.ltb y x); [| reflexivity]. now rewrite IH.
Qed.

Lemma sort_strings_cells (l : list string) :
  sort (map CStr l) = Ret (map CStr (sort_strings l)).
Proof.
  induction l as [| x l IH]; simpl; [reflexivity |].
  rewrite IH. simpl. apply insert_sorted_strings.
Qed.

(** The first element of an ascending list is its minimum, the last one
    its maximum. *)
Lemma sorted_head_min (o : string) (l : list string) :
  StronglySorted str_le (o :: l) -> forall t, In t (o :: l) -> str_le o t.
Proof.
  intros Hs t [<- | Hin]; [apply str_le_refl |].
  apply StronglySorted_inv in Hs as [_ Hall].
  now apply (proj1 (List.Forall_forall _ _) Hall).
Qed.

Lemma last_In (l : list string) (d : string) : l <> [] -> In (List.last l d) l.
Proof.
  intros Hne. destruct (exists_last Hne) as (l' & a & ->).
  rewrite last_last. apply in_or_app. right. now left.
Qed.

Lemma sorted_last_max (l : list string) (d : string) :
  StronglySorted str_le l -> forall t, In t l -> str_le t (List.last l d).
Proof.
  induction 1 as [| y l Hs IH Hall]; intros t Hin; [destruct Hin |].
  destruct l as [| z l'].
  - destruct Hin as [<- | []]. apply str_le_refl.
  - change (List.last (y :: z :: l') d) with (List.last (z :: l') d).
    destruct Hin as [<- | Hin]; [| now apply IH].
    apply (proj1 (List.Forall_forall _ _) Hall).
    apply last_In. discriminate.
Qed.

Lemma last_item_strings (l : list string) (d : string) :
  l <> [] -> last_item (map CStr l) = Ret (CStr (List.last l d)).
Proof.
  intros Hne. destruct (exists_last Hne) as (l' & a & ->).
  unfold last_item. rewrite map_app, rev_app_distr, last_last. reflexivity.
Qed.

(** ** The archive lookup *)

Lemma timestamp_entry (r : json_row) (t : string) :
  timestamp_of_row r = Some t -> entry_1 r = Ret (CStr t).
Proof.
  destruct r as [cells | s | |]; simpl; try discriminate.
  destruct cells as [| c0 [| c1 cells]]; try discriminate.
  destruct c1; try discriminate. now intros [= ->].
Qed.

Lemma timestamps_column (rows : list json_row) (ts : list string) :
  map timestamp_of_row rows = map Some ts ->
  mapM entry_1 rows = Ret (map CStr ts).
Proof.
  revert ts. induction rows as [| r rows IH]; intros [| t ts]; simpl; try discriminate.
  - reflexivity.
  - intros [= Hr Hrows]. rewrite (timestamp_entry r t Hr). simpl.
    now rewrite (IH ts Hrows).
Qed.

(** A decodable reply with at least one data row whose rows all carry a
    string in their second column: the two dates are the formatted
    minimum and maximum of these strings. *)
Lemma lookup_body_rows (header : json_row) (rows : list json_row) (ts : list string) :
  rows <> [] ->
  map timestamp_of_row rows = map Some ts ->
  exists oldest newest,
    List.hd_error (sort_strings ts) = Some oldest
    /\ List.last (sort_strings ts) EmptyString = newest
    /\ In oldest ts /\ In newest ts
    /\ (forall t, In t ts -> str_le oldest t /\ str_le t newest)
    /\ lookup_body (Response 200 (Some (DList (header :: rows))))
       = Ret (Some (format_date oldest), Some (format_date newest)).
Proof.
  intros Hne Hts.
  assert (ts <> []) as Hts_ne.
  { intros ->. destruct rows; [now apply Hne | discriminate Hts]. }
  pose proof (sort_strings_perm ts) as Hperm.
  pose proof (sort_strings_sorted ts) as Hsorted.
  destruct (sort_strings ts) as [| o rest] eqn:Hsort.
  { apply Permutation_sym, Permutation_nil in Hperm. contradiction. }
  exists o, (List.last (o :: rest) EmptyString).
  split; [reflexivity | split; [reflexivity |]].
  assert (o :: rest <> []) as Hne' by discriminate.
  split; [| split; [| split]].
  - apply (Permutation_in _ (Permutation_sym Hperm)). now left.
  - apply (Permutation_in _ (Permutation_sym Hperm)). now apply last_In.
  - intros t Hin. apply (Permutation_in _ Hperm) in Hin. split.
    + now apply (sorted_head_min o rest).
    + now apply sorted_last_max.
  - unfold lookup_body. cbn [Z.eqb Pos.eqb negb bind doc_len doc_tail tl length].
    destruct rows as [| r rows']; [now contradiction Hne |].
    cbn [length Nat.ltb Nat.leb]. rewrite (timestamps_column _ _ Hts). cbn [bind].
    rewrite sort_strings_cells, Hsort. cbn [bind].
    rewrite (last_item_strings (o :: rest) EmptyString Hne'). reflexivity.
Qed.


(** ** The date format *)

Tactic Notation "split_chars" ident(t) integer(n) :=
  do n (let a := fresh "a" in
        destruct t as [| a t]; [simpl in *; try discriminate; try lia |]).

Lemma format_date_is_date (t : string) :
  is_timestamp14 t = true -> is_date_string (format_date t) = true.
Proof.
  unfold is_timestamp14, all_digits. intros H.
  apply andb_true_iff in H as [Hlen Hd].
  split_chars t 14.
  destruct t; [| discriminate Hlen].
  cbn [list_ascii_of_string forallb] in Hd.
  repeat (apply andb_true_iff in Hd as [? Hd]).
  cbv [is_date_string format_date slice Nat.sub substring String.append
       list_ascii_of_string forallb].
  repeat match goal with H : is_digit _ = true |- _ => rewrite H; clear H end.
  reflexivity.
Qed.

(** Formatting keeps the order of strings of eight characters or more. *)
Lemma format_date_mono (t1 t2 : string) :
  (8 <= String.length t1)%nat -> (8 <= String.length t2)%nat ->
  str_le t1 t2 -> str_le (format_date t1) (format_date t2).
Proof.
  intros H1 H2.
  split_chars t1 8. split_chars t2 8. clear H1 H2.
  cbv [str_le String.leb format_date slice Nat.sub substring String.append
       String.compare].
  change (Ascii.compare "-" "-") with Eq. cbv iota.
  repeat match goal with
         | |- context [Ascii.compare ?x ?y] =>
             destruct (Ascii.compare x y); try (intros; congruence)
         end.
  intros _. destruct t1, t2; reflexivity.
Qed.

Lemma timestamp14_length (t : string) :
  is_timestamp14 t = true -> String.length t = 14%nat.
Proof.
  unfold is_timestamp14. intros H. apply andb_true_iff in H as [H _].
  now apply Nat.eqb_eq.
Qed.

(** ** Shape of the result *)

Lemma lookup_body_shape (reply : http_reply) (p : option string * option string) :
  lookup_body reply = Ret p ->
  p = no_dates \/ exists o n, p = (Some o, Some n).
Proof.
  unfold lookup_body. destruct reply as [| st body]; [discriminate |].
  destruct (negb (st =? 200)); [intros [= <-]; now left |].
  destruct body as [data |]; cbn [bind]; [| discriminate].
  destruct (doc_len data) as [n | e]; cbn [bind]; [| discriminate].
  destruct (n <? 2)%nat; [intros [= <-]; now left |].
  destruct (doc_tail data) as [entries | e]; cbn [bind]; [| discriminate].
  destruct (mapM entry_1 entries) as [cells | e]; cbn [bind]; [| discriminate].
  destruct (sort cells) as [sorted | e]; cbn [bind]; [| discriminate].
  destruct (first_item sorted) as [oldest | e]; cbn [bind]; [| discriminate].
  destruct (last_item sorted) as [newest | e]; cbn [bind]; [| discriminate].
  destruct (format_cell oldest) as [o | e]; cbn [bind]; [| discriminate].
  destruct (format_cell newest) as [n' | e]; cbn [bind]; [| discriminate].
  intros [= <-]. right. now exists o, n'.
Qed.

Lemma well_formed_rows (rows : list json_row) :
  Forall well_formed_row rows ->
  exists ts, map timestamp_of_row rows = map Some ts
             /\ Forall (fun t => is_timestamp14 t = true) ts.
Proof.
  induction 1 as [| r rows (t & Hr & Ht) _ (ts & Hts & Hall)].
  - exists []. split; constructor.
  - exists (t :: ts). split; [simpl; now rewrite Hr, Hts | now constructor].
Qed.

(** The lookup never raises: the handler turns every exception of the
    body into the pair of nulls. *)
Lemma lookup_run (net : request -> http_reply) (url : string) :
  url <> EmptyString ->
  run net (get_oldest_and_newest_archive_date url)
  = try_except (lookup_body (net (cdx_request url))) (fun _ => true) (Ret no_dates)
  /\ calls net (get_oldest_and_newest_archive_date url) = [cdx_request url].
Proof.
  intros Hne. unfold get_oldest_and_newest_archive_date.
  destruct (String.eqb_spec url EmptyString) as [-> | _]; [now contradiction Hne |].
  split; reflexivity.
Qed.


Lemma lookup_raise_no_dates (net : request -> http_reply) (url : string) (e : exn) :
  url <> EmptyString ->
  lookup_body (net (cdx_request url)) = Raise e ->
  run net (get_oldest_and_newest_archive_date url) = Ret no_dates.
Proof.
  intros Hne He. destruct (lookup_run net url Hne) as [-> _]. now rewrite He.
Qed.

Lemma lookup_ret (net : request -> http_reply) (url : string)
    (p : option string * option string) :
  url <> EmptyString ->
  lookup_body (net (cdx_request url)) = Ret p ->
  run net (get_oldest_and_newest_archive_date url) = Ret p.
Proof.
  intros Hne Hp. destruct (lookup_run net url Hne) as [-> _]. now rewrite Hp.
Qed.

(** C4.  An empty website string gives the pair of nulls without any
    request.  Otherwise exactly one GET request is issued; when it raises,
    answers with a status other than 200, cannot be decoded, holds fewer
    than two entries, or anything in the body raises, the result is the
    pair of nulls; when it holds a header row and data rows with a string
    in the second column, these strings are sorted ascending and the
    result is the formatted minimum and maximum.  Formatting slices the
    first eight characters into three groups, which turns a 14-digit
    timestamp into a date of the form YYYY-MM-DD. *)
Theorem archive_lookup_spec (net : request -> http_reply) (url : string) :
  let lookup := get_oldest_and_newest_archive_date url in
  let reply := net (cdx_request url) in
  (url = EmptyString -> calls net lookup = [] /\ run net lookup = Ret no_dates)
  /\ (url <> EmptyString ->
      calls net lookup = [cdx_request url]
      /\ (forall e, lookup_body reply = Raise e -> run net lookup = Ret no_dates)
      /\ (reply = ConnectionFailed -> run net lookup = Ret no_dates)
      /\ (forall st body, reply = Response st body -> st <> 200 ->
             run net lookup = Ret no_dates)
      /\ (reply = Response 200 None -> run net lookup = Ret no_dates)
      /\ (forall data n, reply = Response 200 (Some data) ->
             doc_len data = Ret n -> (n < 2)%nat ->
             run net lookup = Ret no_dates)
      /\ (forall header rows ts,
             reply = Response 200 (Some (DList (header :: rows))) ->
             rows <> [] ->
             map timestamp_of_row rows = map Some ts ->
             exists sorted oldest newest,
               Permutation ts sorted /\ StronglySorted str_le sorted
               /\ List.hd_error sorted = Some oldest
               /\ List.last sorted EmptyString = newest
               /\ (forall t, In t ts -> str_le oldest t /\ str_le t newest)
               /\ run net lookup
                  = Ret (Some (format_date oldest), Some (format_date newest))))
  /\ (forall t, format_date t
                = (slice 0 4 t ++ "-" ++ slice 4 6 t ++ "-" ++ slice 6 8 t)%string)
  /\ (forall t, is_timestamp14 t = true -> is_date_string (format_date t) = true)
  /\ format_date "20190315120000" = "2019-03-15"%string.
Proof.
  intros lookup reply. subst lookup reply.
  split; [| split; [| split; [| split]]].
  - intros ->. split; reflexivity.
  - intros Hne. split; [apply (lookup_run net url Hne) |].
    split; [| split; [| split; [| split; [| split]]]].
    + intros e. now apply lookup_raise_no_dates.
    + intros H. apply (lookup_raise_no_dates net url RequestException Hne).
      now rewrite H.
    + intros st body H Hst. apply (lookup_ret net url no_dates Hne).
      rewrite H. unfold lookup_body.
      destruct (Z.eqb_spec st 200) as [E | _]; [now contradiction Hst | reflexivity].
    + intros H. apply (lookup_raise_no_dates net url JSONDecodeError Hne).
      now rewrite H.
    + intros data n H Hlen Hn. apply (lookup_ret net url no_dates Hne).
      rewrite H. unfold lookup_body. cbn [Z.eqb Pos.eqb negb bind].
      rewrite Hlen. cbn [bind]. apply Nat.ltb_lt in Hn. now rewrite Hn.
    + intros header rows ts H Hrows Hts.
      destruct (lookup_body_rows header rows ts Hrows Hts)
        as (oldest & newest & Hhd & Hlast & _ & _ & Hminmax & Hbody).
      exists (sort_strings ts), oldest, newest.
      split; [apply sort_strings_perm |].
      split; [apply sort_strings_sorted |].
      split; [exact Hhd | split; [exact Hlast | split; [exact Hminmax |]]].
      apply (lookup_ret net url _ Hne). now rewrite H.
  - reflexivity.
  - exact format_date_is_date.
  - reflexivity.
Qed.

Lemma archive_lookup_spec_witness :
  let net := fun _ : request =>
    Response 200 (Some (DList [RList [CStr "urlkey"; CStr "timestamp"];
                               RList [CStr "at,example)/"; CStr "20210101000000"];
                               RList [CStr "at,example)/"; CStr "20190315120000"]])) in
  let lookup := get_oldest_and_newest_archive_date "example.at" in
  calls net lookup = [cdx_request "example.at"]
  /\ (exists sorted oldest newest,
        Permutation ["20210101000000"; "20190315120000"]%string sorted
        /\ StronglySorted str_le sorted
        /\ List.hd_error sorted = Some oldest
        /\ List.last sorted EmptyString = newest
        /\ (forall t, In t ["20210101000000"; "20190315120000"]%string ->
              str_le oldest t /\ str_le t newest)
        /\ run net lookup = Ret (Some (format_date oldest), Some (format_date newest)))
  /\ calls net (get_oldest_and_newest_archive_date EmptyString) = []
  /\ run net (get_oldest_and_newest_archive_date EmptyString) = Ret no_dates.
Proof.
  intros net lookup.
  destruct (archive_lookup_spec net "example.at") as (_ & H & _).
  destruct H as (Hcalls & _ & _ & _ & _ & _ & Hrows); [discriminate |].
  destruct (archive_lookup_spec net EmptyString) as (Hempty & _).
  destruct (Hempty eq_refl) as [Hc Hr].
  split; [exact Hcalls | split; [| split; [exact Hc | exact Hr]]].
  eapply Hrows; [reflexivity | discriminate | reflexivity].
Defined.

(** C10, as stated, fails: the function does not look at what the second
    column holds.  A reply whose data rows carry the strings [2019!] and
    [2019] there gives a pair of two strings that are no dates of the form
    YYYY-MM-DD, and the one returned as oldest comes after the one
    returned as newest in string order. *)
Lemma archive_dates_counterexample :
  let net := fun _ : request =>
    Response 200 (Some (DList [RList [CStr "urlkey"; CStr "timestamp"];
                               RList [CStr "at,example)/"; CStr "2019!"];
                               RList [CStr "at,example)/"; CStr "2019"]])) in
  run net (get_oldest_and_newest_archive_date "example.at")
  = Ret (Some "2019--"%string, Some "2019-!-"%string)
  /\ is_date_string "2019--" = false
  /\ is_date_string "2019-!-" = false
  /\ String.leb "2019--" "2019-!-" = false.
Proof. repeat split; vm_compute; reflexivity. Qed.

(** C10, amended.  The result pair is all or nothing: both components
    null, or both strings; a mixed pair never occurs.  When the reply
    follows the interface of the snapshot index (14-digit timestamps in
    the second column of the data rows), both strings are dates of the
    form YYYY-MM-DD and the oldest is not after the newest in string
    order. *)
Theorem archive_dates_all_or_nothing (net : request -> http_reply) (url : string) :
  let result := run net (get_oldest_and_newest_archive_date url) in
  (result = Ret no_dates \/ exists o n, result = Ret (Some o, Some n))
  /\ (conforms (net (cdx_request url)) ->
      forall o n, result = Ret (Some o, Some n) ->
        is_date_string o = true /\ is_date_string n = true /\ str_le o n).
Proof.
  intros result. subst result.
  destruct (String.eqb_spec url EmptyString) as [-> | Hne].
  { split; [now left |]. intros _ o n H. discriminate H. }
  destruct (lookup_run net url Hne) as [-> _].
  set (reply := net (cdx_request url)). split.
  - destruct (lookup_body reply) as [p | e] eqn:Hbody; cbn [try_except]; [| now left].
    destruct (lookup_body_shape reply p Hbody) as [-> | (o & n & ->)];
      [now left | right; now exists o, n].
  - intros Hconf o n Hres.
    destruct reply as [| st [data |]] eqn:Hreply; cbn [conforms] in Hconf.
    + discriminate Hres.
    + destruct data as [rows | | |]; try contradiction.
      destruct (Z.eqb_spec st 200) as [-> | Hst];
        [| unfold lookup_body in Hres;
           destruct (Z.eqb_spec st 200); [contradiction | discriminate Hres]].
      destruct rows as [| header [| r rows]]; try discriminate Hres.
      destruct (well_formed_rows (r :: rows) Hconf) as (ts & Hts & Hall).
      destruct (lookup_body_rows header (r :: rows) ts) as
        (oldest & newest & _ & _ & Ho & Hn & Hminmax & Hbody);
        [discriminate | exact Hts |].
      rewrite Hbody in Hres. cbn [try_except] in Hres.
      injection Hres as <- <-.
      pose proof (proj1 (List.Forall_forall _ _) Hall) as Hts14.
      split; [apply format_date_is_date, Hts14, Ho |].
      split; [apply format_date_is_date, Hts14, Hn |].
      apply format_date_mono.
      * rewrite (timestamp14_length oldest (Hts14 _ Ho)). lia.
      * rewrite (timestamp14_length newest (Hts14 _ Hn)). lia.
      * apply (Hminmax newest Hn).
    + unfold lookup_body in Hres.
      destruct (negb (st =? 200)); discriminate Hres.
Qed.

Lemma archive_dates_all_or_nothing_witness :
  let net := fun _ : request =>
    Response 200 (Some (DList [RList [CStr "urlkey"; CStr "timestamp"];
                               RList [CStr "at,example)/"; CStr "20210101000000"];
                               RList [CStr "at,example)/"; CStr "20190315120000"]])) in
  let result := run net (get_oldest_and_newest_archive_date "example.at") in
  result = Ret (Some "2019-03-15"%string, Some "2021-01-01"%string)
  /\ (result = Ret no_dates \/ exists o n, result = Ret (Some o, Some n))
  /\ is_date_string "2019-03-15" = true
  /\ is_date_string "2021-01-01" = true
  /\ str_le "2019-03-15" "2021-01-01".
Proof.
  intros net result.
  destruct (archive_dates_all_or_nothing net "example.at") as [Hshape Hdates].
  split; [reflexivity | split; [exact Hshape |]].
  apply Hdates.
  - cbn [conforms net tl].
    repeat constructor; eexists; (split; [reflexivity | reflexivity]).
  - reflexivity.
Defined.


(** * Further properties of the Analyzer *)

(** ** Group counts *)

Section GroupByFacts.

Context {K : Type} (cmp : K -> K -> comparison).
Hypothesis cmp_eq : forall x y, cmp x y = Eq <-> x = y.
Hypothesis cmp_antisym : forall x y, cmp x y = CompOpp (cmp y x).
Hypothesis cmp_trans : forall x y z, cmp x y = Lt -> cmp y z = Lt -> cmp x z = Lt.

Lemma cmp_refl (x : K) : cmp x x = Eq.
Proof. now apply cmp_eq. Qed.

Lemma cmp_gt_lt (x y : K) : cmp x y = Gt -> cmp y x = Lt.
Proof. intros H. rewrite cmp_antisym, H. reflexivity. Qed.

Lemma count_key_sum (k : K) (groups : list (K * nat)) :
  list_sum (map snd (count_key cmp k groups)) = S (list_sum (map snd groups)).
Proof.
  induction groups as [| [k' n] rest IH]; simpl; [reflexivity |].
  destruct (cmp k k'); simpl; [lia | lia | rewrite IH; lia].
Qed.

Lemma groupby_size_sum (keys : list K) :
  list_sum (map snd (groupby_size cmp keys)) = length keys.
Proof.
  induction keys as [| k keys IH]; simpl; [reflexivity |].
  now rewrite count_key_sum, IH.
Qed.

Lemma count_key_keys (k : K) (groups : list (K * nat)) (e : K * nat) :
  In e (count_key cmp k groups) -> fst e = k \/ exists e', In e' groups /\ fst e' = fst e.
Proof.
  induction groups as [| [k' n] rest IH]; simpl.
  - intros [<- | []]. now left.
  - destruct (cmp k k') eqn:Hc; simpl.
    + intros [<- | Hin]; right.
      * exists (k', n). split; [now left | reflexivity].
      * exists e. split; [now right | reflexivity].
    + intros [<- | [<- | Hin]].
      * now left.
      * right. exists (k', n). split; [now left | reflexivity].
      * right. exists e. split; [now right | reflexivity].
    + intros [<- | Hin].
      * right. exists (k', n). split; [now left | reflexivity].
      * destruct (IH Hin) as [H | (e' & He' & Hk)]; [now left |].
        right. exists e'. split; [now right | exact Hk].
Qed.

Lemma count_key_ascending (k : K) (groups : list (K * nat)) :
  ascending cmp groups -> ascending cmp (count_key cmp k groups).
Proof.
  unfold ascending. induction 1 as [| [k' n] rest Hs IH Hall]; simpl.
  - constructor; constructor.
  - destruct (cmp k k') eqn:Hc.
    + constructor; [exact Hs | exact Hall].
    + constructor; [now constructor |].
      constructor; [exact Hc |].
      eapply List.Forall_impl; [| exact Hall].
      intros e He. simpl in *. now apply (cmp_trans k k' (fst e)).
    + constructor; [exact IH |].
      apply List.Forall_forall. intros e Hin.
      destruct (count_key_keys k rest e Hin) as [-> | (e' & He' & <-)].
      * simpl. now apply cmp_gt_lt.
      * exact (proj1 (List.Forall_forall _ _) Hall e' He').
Qed.

Lemma groupby_size_ascending (keys : list K) : ascending cmp (groupby_size cmp keys).
Proof.
  induction keys as [| k keys IH]; simpl; [constructor | now apply count_key_ascending].
Qed.

Lemma group_count_below (k : K) (groups : list (K * nat)) :
  Forall (fun e => cmp k (fst e) = Lt) groups -> group_count cmp k groups = 0%nat.
Proof.
  induction 1 as [| [k' n] rest Hk _ IH]; simpl; [reflexivity |].
  simpl in Hk. now rewrite Hk.
Qed.

Lemma group_count_count_key (k k' : K) (groups : list (K * nat)) :
  ascending cmp groups ->
  group_count cmp k' (count_key cmp k groups)
  = (group_count cmp k' groups
     + match cmp k' k with Eq => 1 | _ => 0 end)%nat.
Proof.
  unfold ascending. induction 1 as [| [k0 n] rest Hs IH Hall]; simpl.
  - destruct (cmp k' k); reflexivity.
  - destruct (cmp k k0) eqn:Hc; simpl.
    + apply cmp_eq in Hc as ->. destruct (cmp k' k0); lia.
    + destruct (cmp k' k) eqn:Hc'; try lia.
      apply cmp_eq in Hc' as ->. rewrite Hc.
      rewrite group_count_below; [reflexivity |].
      eapply List.Forall_impl; [| exact Hall].
      intros e He. simpl in *. now apply (cmp_trans k k0 (fst e)).
    + destruct (cmp k' k0) eqn:Hc0.
      * apply cmp_eq in Hc0 as ->. rewrite (cmp_gt_lt k k0 Hc). lia.
      * exact IH.
      * exact IH.
Qed.

Lemma group_count_groupby (k : K) (keys : list K) :
  group_count cmp k (groupby_size cmp keys) = occurrences cmp k keys.
Proof.
  unfold occurrences. induction keys as [| k0 keys IH]; simpl; [reflexivity |].
  rewrite group_count_count_key by apply groupby_size_ascending.
  rewrite IH. destruct (cmp k k0); simpl; lia.
Qed.

Lemma group_count_member (e : K * nat) (groups : list (K * nat)) :
  ascending cmp groups -> In e groups -> group_count cmp (fst e) groups = snd e.
Proof.
  unfold ascending. induction 1 as [| [k0 n] rest Hs IH Hall]; simpl; [tauto |].
  intros [<- | Hin].
  - simpl. now rewrite cmp_refl.
  - pose proof (proj1 (List.Forall_forall _ _) Hall e Hin) as Hlt. simpl in Hlt.
    rewrite cmp_antisym, Hlt. simpl. now apply IH.
Qed.

Lemma group_count_positive (k : K) (groups : list (K * nat)) :
  (0 < group_count cmp k groups)%nat -> In (k, group_count cmp k groups) groups.
Proof.
  induction groups as [| [k0 n] rest IH]; simpl; [lia |].
  destruct (cmp k k0) eqn:Hc.
  - apply cmp_eq in Hc as ->. now left.
  - intros H. right. now apply IH.
  - intros H. right. now apply IH.
Qed.

Lemma groupby_size_positive (keys : list K) :
  Forall (fun e => (1 <= snd e)%nat) (groupby_size cmp keys).
Proof.
  induction keys as [| k keys IH]; simpl; [constructor |].
  induction IH as [| [k0 n] rest Hn Hrest IHrest]; simpl.
  - constructor; [simpl; lia | constructor].
  - destruct (cmp k k0).
    + constructor; [simpl in *; lia | exact Hrest].
    + constructor; [simpl; lia |]. now constructor.
    + now constructor.
Qed.

End GroupByFacts.


(** ** The order of strings is a strict total order *)

Lemma string_compare_eq (x y : string) : String.compare x y = Eq <-> x = y.
Proof.
  split; [apply String.compare_eq_iff | intros ->; apply string_compare_refl].
Qed.

Lemma string_compare_lt_trans (x y z : string) :
  String.compare x y = Lt -> String.compare y z = Lt -> String.compare x z = Lt.
Proof.
  intros Hxy Hyz.
  assert (str_le x z) as Hle.
  { apply (str_le_trans x y z); unfold str_le, String.leb; [now rewrite Hxy | now rewrite Hyz]. }
  unfold str_le, String.leb in Hle.
  destruct (String.compare x z) eqn:Hxz; [| reflexivity | discriminate].
  apply string_compare_eq in Hxz as ->.
  rewrite String.compare_antisym, Hxy in Hyz. discriminate.
Qed.

(** ** The grouping by [offers repair] *)

Lemma mapM_same_length {A B : Type} (f : A -> result B) (l : list A) (out : list B) :
  mapM f l = Ret out -> length out = length l.
Proof.
  intros H. apply mapM_Forall2 in H.
  induction H as [| x y l out _ _ IH]; simpl; [reflexivity | now rewrite IH].
Qed.

Lemma occurrences_rows_of (k : string) (df : list Row) :
  occurrences String.compare k (present_keys df) = rows_of k df.
Proof.
  unfold occurrences, rows_of. induction df as [| r df IH]; simpl; [reflexivity |].
  destruct (offers_repair r) as [k' |]; simpl; [| exact IH].
  destruct (String.eqb_spec k k') as [-> | Hne].
  - rewrite string_compare_refl. simpl. now rewrite IH.
  - destruct (String.compare k k') eqn:Hc; try exact IH.
    apply string_compare_eq in Hc. contradiction.
Qed.

Lemma present_keys_length (df : list Row) : length (present_keys df) = rows_with_key df.
Proof.
  unfold rows_with_key. induction df as [| r df IH]; simpl; [reflexivity |].
  destruct (offers_repair r); simpl; now rewrite IH.
Qed.

Lemma grouped_offers_repair_members (df : list Row) :
  ascending String.compare (grouped_offers_repair df)
  /\ (forall k n,
        In (k, n) (grouped_offers_repair df)
        <-> n = rows_of k df /\ (0 < n)%nat).
Proof.
  unfold grouped_offers_repair.
  pose proof (groupby_size_ascending String.compare String.compare_antisym
                string_compare_lt_trans (present_keys df)) as Hasc.
  split; [exact Hasc |]. intros k n. split.
  - intros Hin.
    pose proof (group_count_member String.compare string_compare_eq
                  String.compare_antisym (k, n) _ Hasc Hin) as Hcount.
    simpl in Hcount.
    rewrite (group_count_groupby String.compare string_compare_eq
               String.compare_antisym string_compare_lt_trans) in Hcount.
    rewrite occurrences_rows_of in Hcount. split; [now symmetry |].
    pose proof (proj1 (List.Forall_forall _ _)
                  (groupby_size_positive String.compare (present_keys df)) (k, n) Hin) as Hp.
    simpl in Hp. lia.
  - intros [-> Hpos].
    rewrite <- occurrences_rows_of.
    rewrite <- (group_count_groupby String.compare string_compare_eq
                  String.compare_antisym string_compare_lt_trans).
    apply (group_count_positive String.compare string_compare_eq).
    rewrite (group_count_groupby String.compare string_compare_eq
               String.compare_antisym string_compare_lt_trans), occurrences_rows_of.
    exact Hpos.
Qed.

(** X1.  The group table lists, in strictly ascending order, exactly the
    values of [offers repair] that occur, each with the number of rows
    that carry it. *)
Theorem grouped_offers_repair_spec (df : list Row) :
  ascending String.compare (grouped_offers_repair df)
  /\ (forall k n,
        In (k, n) (grouped_offers_repair df)
        <-> n = rows_of k df /\ (0 < n)%nat).
Proof. exact (grouped_offers_repair_members df). Qed.

Lemma filter_length_all {A : Type} (f : A -> bool) (l : list A) :
  length (List.filter f l) = length l <-> forall x, In x l -> f x = true.
Proof.
  induction l as [| x l IH]; simpl.
  - split; [intros _ y [] | reflexivity].
  - pose proof (filter_length_le f l) as Hle.
    destruct (f x) eqn:Hx; simpl.
    + split.
      * intros H y [<- | Hy]; [exact Hx | apply IH; [lia | exact Hy]].
      * intros H. f_equal. apply IH. intros y Hy. apply H. now right.
    + split; [lia |]. intros H. specialize (H x (or_introl eq_refl)). congruence.
Qed.

(** X2.  The total of the group table is the number of rows that carry an
    [offers repair] value: rows without one are in no group, so the total
    falls short of the number of rows exactly when such a row exists. *)
Theorem offers_total_spec (df : list Row) :
  offers_total df = rows_with_key df
  /\ (offers_total df <= length df)%nat
  /\ (offers_total df = length df <-> forall r, In r df -> offers_repair r <> None).
Proof.
  assert (offers_total df = rows_with_key df) as E.
  { unfold offers_total, grouped_offers_repair.
    now rewrite groupby_size_sum, present_keys_length. }
  rewrite E. unfold rows_with_key. split; [reflexivity | split].
  - apply filter_length_le.
  - rewrite filter_length_all. split; intros H r Hin; specialize (H r Hin).
    + now destruct (offers_repair r).
    + destruct (offers_repair r); [reflexivity | now contradiction H].
Qed.

(** ** The validity summary *)

Lemma mask_counts_total (l : list (bool * bool)) :
  (length (List.filter (fun fc => fst fc && snd fc) l)
   + length (List.filter (fun fc => fst fc && negb (snd fc)) l)
   + length (List.filter (fun fc => negb (fst fc) && snd fc) l)
   + length (List.filter (fun fc => negb (fst fc) && negb (snd fc)) l))%nat
  = length l.
Proof.
  induction l as [| [[|] [|]] l IH]; simpl; lia.
Qed.

(** X3.  The four counts of the validity summary add up to the number of rows
    of the table: every row falls under exactly one of the four masks. *)
Theorem price_data_total_spec (df : list Row) (firsts currents : list bool) :
  mapM (fun r => is_float (First_Price r)) df = Ret firsts ->
  mapM (fun r => is_float (Current_Price r)) df = Ret currents ->
  price_data_total firsts currents = length df.
Proof.
  intros Hf Hc. apply mapM_same_length in Hf, Hc.
  unfold price_data_total, summary_price_validity, both_valid, only_first_valid,
    only_current_valid, neither_valid, mask_count. cbv [list_sum fold_right].
  pose proof (mask_counts_total (combine firsts currents)) as Ht.
  rewrite length_combine in Ht. lia.
Qed.

Lemma price_data_total_spec_witness :
  price_data_total [true; true; false] [true; false; false] = 3%nat.
Proof.
  apply (price_data_total_spec
           [mkRow None (VInt 1) (VStr "2") None None;
            mkRow None (VStr "1.5") (VStr "n/a") None None;
            mkRow None VNone (VFloat nan) None None]); reflexivity.
Defined.

Lemma mask_counts_tags (l : list (bool * bool)) :
  let tags := map (fun fc => price_info (fst fc) (snd fc)) l in
  length (List.filter (fun fc => fst fc && snd fc) l) = tag_count both tags
  /\ length (List.filter (fun fc => fst fc && negb (snd fc)) l) = tag_count only_first tags
  /\ length (List.filter (fun fc => negb (fst fc) && snd fc) l) = tag_count only_current tags
  /\ length (List.filter (fun fc => negb (fst fc) && negb (snd fc)) l) = tag_count none tags.
Proof.
  unfold tag_count, occurrences.
  induction l as [| [[|] [|]] l (IH1 & IH2 & IH3 & IH4)]; simpl;
    repeat split; simpl; congruence.
Qed.

(** X4.  The counts of the validity summary are the numbers of rows tagged
    [both], [only_first], [only_current] and [none] in the [price_info]
    column: the masks and the tags classify the rows alike. *)
Theorem summary_matches_tags (df : list Row) (firsts currents : list bool)
    (tags : list PriceInfo) :
  mapM (fun r => is_float (First_Price r)) df = Ret firsts ->
  mapM (fun r => is_float (Current_Price r)) df = Ret currents ->
  price_info_column df = Ret tags ->
  summary_price_validity firsts currents
  = [tag_count both tags; tag_count only_first tags;
     tag_count only_current tags; tag_count none tags].
Proof.
  intros Hf Hc. unfold price_info_column. rewrite Hf, Hc. cbn [bind].
  intros [= <-].
  destruct (mask_counts_tags (combine firsts currents)) as (H1 & H2 & H3 & H4).
  unfold summary_price_validity, both_valid, only_first_valid, only_current_valid,
    neither_valid, mask_count.
  now rewrite H1, H2, H3, H4.
Qed.

Lemma summary_matches_tags_witness :
  summary_price_validity [true; true; false] [true; false; false]
  = [tag_count both [both; only_first; none];
     tag_count only_first [both; only_first; none];
     tag_count only_current [both; only_first; none];
     tag_count none [both; only_first; none]].
Proof.
  apply (summary_matches_tags
           [mkRow None (VInt 1) (VStr "2") None None;
            mkRow None (VStr "1.5") (VStr "n/a") None None;
            mkRow None VNone (VFloat nan) None None]); reflexivity.
Defined.


(** ** The cross table *)

Lemma tag_compare_eq (t u : PriceInfo) : tag_compare t u = Eq <-> t = u.
Proof. destruct t, u; vm_compute; split; congruence. Qed.

Lemma tag_compare_antisym (t u : PriceInfo) :
  tag_compare t u = CompOpp (tag_compare u t).
Proof. apply String.compare_antisym. Qed.

Lemma tag_compare_trans (t u v : PriceInfo) :
  tag_compare t u = Lt -> tag_compare u v = Lt -> tag_compare t v = Lt.
Proof. apply string_compare_lt_trans. Qed.

Lemma pair_compare_eq (a b : string * PriceInfo) : pair_compare a b = Eq <-> a = b.
Proof.
  destruct a as [k t], b as [k' t']. unfold pair_compare. simpl.
  destruct (String.compare k k') eqn:Hc.
  - apply string_compare_eq in Hc as ->. rewrite tag_compare_eq.
    split; [now intros -> | now intros [= ->]].
  - split; [discriminate | intros [= -> _]]. now rewrite string_compare_refl in Hc.
  - split; [discriminate | intros [= -> _]]. now rewrite string_compare_refl in Hc.
Qed.

Lemma pair_compare_antisym (a b : string * PriceInfo) :
  pair_compare a b = CompOpp (pair_compare b a).
Proof.
  unfold pair_compare. rewrite (String.compare_antisym (fst a) (fst b)).
  destruct (String.compare (fst b) (fst a)); simpl; try reflexivity.
  apply tag_compare_antisym.
Qed.

Lemma pair_compare_trans (a b c : string * PriceInfo) :
  pair_compare a b = Lt -> pair_compare b c = Lt -> pair_compare a c = Lt.
Proof.
  unfold pair_compare.
  destruct (String.compare (fst a) (fst b)) eqn:Hab; try discriminate;
    destruct (String.compare (fst b) (fst c)) eqn:Hbc; try discriminate; intros H1 H2.
  - apply string_compare_eq in Hab, Hbc. rewrite Hab, Hbc, string_compare_refl.
    now apply (tag_compare_trans (snd a) (snd b) (snd c)).
  - apply string_compare_eq in Hab. now rewrite Hab, Hbc.
  - apply string_compare_eq in Hbc. now rewrite <- Hbc, Hab.
  - now rewrite (string_compare_lt_trans _ _ _ Hab Hbc).
Qed.

Lemma present_pairs_keys (df : list Row) (tags : list PriceInfo) :
  length tags = length df -> map fst (present_pairs df tags) = present_keys df.
Proof.
  revert tags. induction df as [| r df IH]; intros [| t tags]; simpl; try discriminate.
  - reflexivity.
  - intros [= Hlen]. destruct (offers_repair r); simpl; now rewrite IH.
Qed.

Lemma occurrences_cons {K : Type} (cmp : K -> K -> comparison) (k x : K) (l : list K) :
  occurrences cmp k (x :: l)
  = ((match cmp k x with Eq => 1 | _ => 0 end) + occurrences cmp k l)%nat.
Proof. unfold occurrences. simpl. now destruct (cmp k x). Qed.

Ltac eval_tag_compare :=
  repeat match goal with
         | |- context [tag_compare ?a ?b] =>
             let v := eval vm_compute in (tag_compare a b) in
             change (tag_compare a b) with v
         end.

(** The pairs with key [k] split over the four tags. *)
Lemma occurrences_split_tags (k : string) (pairs : list (string * PriceInfo)) :
  list_sum (map (fun t => occurrences pair_compare (k, t) pairs) all_tags)
  = occurrences String.compare k (map fst pairs).
Proof.
  unfold all_tags. cbv [list_sum fold_right].
  change (map (fun t => occurrences pair_compare (k, t) pairs)
              [both; only_first; only_current; none])
    with [occurrences pair_compare (k, both) pairs;
          occurrences pair_compare (k, only_first) pairs;
          occurrences pair_compare (k, only_current) pairs;
          occurrences pair_compare (k, none) pairs].
  induction pairs as [| [k' t'] pairs IH]; [reflexivity |].
  cbn [map fst]. rewrite !occurrences_cons, <- IH.
  unfold pair_compare. cbn [fst snd].
  destruct (String.compare k k'); destruct t'; eval_tag_compare; cbv iota; lia.
Qed.

Lemma tag_eqb_true (t u : PriceInfo) : tag_eqb t u = true <-> t = u.
Proof.
  unfold tag_eqb. rewrite <- tag_compare_eq. destruct (tag_compare t u); split; congruence.
Qed.

Lemma existsb_tag (t : PriceInfo) (cols : list PriceInfo) :
  existsb (tag_eqb t) cols = true <-> In t cols.
Proof.
  rewrite existsb_exists. split.
  - intros (u & Hin & Heq). apply tag_eqb_true in Heq. now subst.
  - intros Hin. exists t. split; [exact Hin | now apply tag_eqb_true].
Qed.

(** A sum over distinct columns that cover every non-zero entry is the sum
    over all four tags. *)
Lemma sum_over_columns (f : PriceInfo -> nat) (cols : list PriceInfo) :
  List.NoDup cols ->
  (forall t, (0 < f t)%nat -> In t cols) ->
  list_sum (map f cols) = list_sum (map f all_tags).
Proof.
  intros Hnd Hcover.
  assert (list_sum (map f cols)
          = list_sum (map (fun t => if existsb (tag_eqb t) cols then f t else 0%nat) all_tags))
    as ->.
  { clear Hcover. induction Hnd as [| c cs Hnotin Hnd IH]; [reflexivity |].
    change (list_sum (map f (c :: cs))) with (f c + list_sum (map f cs))%nat.
    rewrite IH. clear IH.
    assert (existsb (tag_eqb c) cs = false) as Hc.
    { destruct (existsb (tag_eqb c) cs) eqn:E; [| reflexivity].
      apply existsb_tag in E. contradiction. }
    unfold all_tags. cbn [map existsb]. cbv [list_sum fold_right].
    destruct c;
      repeat match goal with
             | |- context [tag_eqb ?a ?b] =>
                 let v := eval vm_compute in (tag_eqb a b) in
                 change (tag_eqb a b) with v
             end;
      cbn [orb]; rewrite ?Hc;
      repeat match goal with |- context [existsb ?g cs] => destruct (existsb g cs) end;
      lia. }
  unfold all_tags. cbn [map].
  assert (forall t, (if existsb (tag_eqb t) cols then f t else 0%nat) = f t) as E.
  { intros t. destruct (existsb (tag_eqb t) cols) eqn:Ht; [reflexivity |].
    destruct (f t) eqn:Hf; [reflexivity |].
    assert (In t cols) as Hin by (apply Hcover; lia).
    apply existsb_tag in Hin. congruence. }
  now rewrite !E.
Qed.


Section GroupByMembers.

Context {K : Type} (cmp : K -> K -> comparison).
Hypothesis cmp_eq : forall x y, cmp x y = Eq <-> x = y.
Hypothesis cmp_antisym : forall x y, cmp x y = CompOpp (cmp y x).
Hypothesis cmp_trans : forall x y z, cmp x y = Lt -> cmp y z = Lt -> cmp x z = Lt.

Lemma occurrences_positive (k : K) (keys : list K) :
  (0 < occurrences cmp k keys)%nat <-> In k keys.
Proof.
  unfold occurrences. induction keys as [| k' keys IH]; simpl; [lia |].
  destruct (cmp k k') eqn:Hc; simpl.
  - apply cmp_eq in Hc as ->. split; [now left | lia].
  - rewrite IH. split; [now right | intros [<- | H]; [| exact H]].
    now rewrite (proj2 (cmp_eq k' k') eq_refl) in Hc.
  - rewrite IH. split; [now right | intros [<- | H]; [| exact H]].
    now rewrite (proj2 (cmp_eq k' k') eq_refl) in Hc.
Qed.

Lemma groupby_size_keys (k : K) (keys : list K) :
  In k (map fst (groupby_size cmp keys)) <-> In k keys.
Proof.
  pose proof (groupby_size_ascending cmp cmp_antisym cmp_trans keys) as Hasc.
  pose proof (group_count_groupby cmp cmp_eq cmp_antisym cmp_trans k keys) as Hcount.
  split.
  - intros Hin. apply occurrences_positive. rewrite <- Hcount.
    apply in_map_iff in Hin as ([k' n] & Hk & Hin). simpl in Hk. subst k'.
    pose proof (group_count_member cmp cmp_eq cmp_antisym (k, n) _ Hasc Hin) as Hn.
    pose proof (proj1 (List.Forall_forall _ _) (groupby_size_positive cmp keys) _ Hin) as Hp.
    simpl in *. lia.
  - intros Hin. apply occurrences_positive in Hin. rewrite <- Hcount in Hin.
    apply (group_count_positive cmp cmp_eq) in Hin.
    apply in_map_iff. now exists (k, group_count cmp k (groupby_size cmp keys)).
Qed.

Lemma ascending_NoDup (groups : list (K * nat)) :
  ascending cmp groups -> List.NoDup (map fst groups).
Proof.
  unfold ascending. induction 1 as [| e rest Hs IH Hall]; simpl; constructor.
  - intros Hin. apply in_map_iff in Hin as (e' & He & Hin).
    pose proof (proj1 (List.Forall_forall _ _) Hall e' Hin) as Hlt.
    cbv beta in Hlt.
    rewrite He, (proj2 (cmp_eq (fst e) (fst e)) eq_refl) in Hlt. discriminate.
  - exact IH.
Qed.

End GroupByMembers.

Lemma rows_of_positive (k : string) (df : list Row) :
  (0 < rows_of k df)%nat <-> In k (present_keys df).
Proof.
  rewrite <- occurrences_rows_of.
  apply (occurrences_positive String.compare string_compare_eq).
Qed.

Lemma overlap_keys (df : list Row) (tags : list PriceInfo) (p : string * PriceInfo) :
  In p (map fst (overlap df tags)) <-> In p (present_pairs df tags).
Proof.
  apply (groupby_size_keys pair_compare pair_compare_eq pair_compare_antisym
           pair_compare_trans).
Qed.

Lemma overlap_cell (df : list Row) (tags : list PriceInfo) (k : string) (t : PriceInfo) :
  group_count pair_compare (k, t) (overlap df tags) = pair_occurrences k t df tags.
Proof.
  apply (group_count_groupby pair_compare pair_compare_eq pair_compare_antisym
           pair_compare_trans).
Qed.

(** The labels of the cross table, the cells of the long table behind
    it, and the sums of its rows. *)
Lemma overlap_pivot_counts (df : list Row) (tags : list PriceInfo) :
  length tags = length df ->
  let ov := overlap df tags in
  (forall k, In k (pivot_index ov) <-> (0 < rows_of k df)%nat)
  /\ (forall t, In t (pivot_columns ov)
                <-> exists k, (0 < pair_occurrences k t df tags)%nat)
  /\ (forall k t, group_count pair_compare (k, t) ov = pair_occurrences k t df tags)
  /\ (forall k counts,
        In (k, counts) (overlap_pivot ov) ->
        length counts = length (pivot_columns ov)
        /\ list_sum counts = rows_of k df
        /\ In (k, rows_of k df) (grouped_offers_repair df)).
Proof.
  intros Hlen ov.
  assert (forall k, In k (pivot_index ov) <-> (0 < rows_of k df)%nat) as Hindex.
  { intros k. unfold pivot_index.
    rewrite (groupby_size_keys String.compare string_compare_eq
               String.compare_antisym string_compare_lt_trans).
    rewrite rows_of_positive, <- (present_pairs_keys df tags Hlen).
    rewrite !in_map_iff. split.
    - intros (e & <- & He). exists (fst e). split; [reflexivity |].
      apply overlap_keys. apply in_map_iff. now exists e.
    - intros (p & <- & Hp). apply overlap_keys in Hp.
      apply in_map_iff in Hp as (e & <- & He). now exists e. }
  assert (forall t, In t (pivot_columns ov)
                    <-> exists k, In (k, t) (present_pairs df tags)) as Hcols.
  { intros t. unfold pivot_columns.
    rewrite (groupby_size_keys tag_compare tag_compare_eq
               tag_compare_antisym tag_compare_trans).
    rewrite in_map_iff. split.
    - intros (e & <- & He). exists (fst (fst e)).
      apply overlap_keys. apply in_map_iff. exists e.
      split; [now destruct e as [[? ?] ?] | exact He].
    - intros (k & Hp). apply overlap_keys in Hp.
      apply in_map_iff in Hp as (e & He & Hin). exists e.
      split; [now rewrite He | exact Hin]. }
  split; [exact Hindex | split; [| split; [apply overlap_cell |]]].
  - intros t. rewrite Hcols. unfold pair_occurrences.
    split; intros (k & H); exists k;
      now apply (occurrences_positive pair_compare pair_compare_eq).
  - intros k counts Hin. unfold overlap_pivot in Hin.
    apply in_map_iff in Hin as (k' & [= -> <-] & Hk).
    split; [now rewrite length_map | split].
    + rewrite (map_ext _ (fun t => occurrences pair_compare (k, t) (present_pairs df tags)))
        by (intros t; apply overlap_cell).
      rewrite sum_over_columns.
      * rewrite occurrences_split_tags, (present_pairs_keys df tags Hlen).
        apply occurrences_rows_of.
      * unfold pivot_columns.
        apply (ascending_NoDup tag_compare tag_compare_eq).
        apply (groupby_size_ascending tag_compare tag_compare_antisym tag_compare_trans).
      * intros t Hpos. apply Hcols. exists k.
        now apply (occurrences_positive pair_compare pair_compare_eq) in Hpos.
    + apply grouped_offers_repair_members. split; [reflexivity | now apply Hindex].
Qed.

Lemma same_tag_true (t u : PriceInfo) : same_tag t u = true <-> t = u.
Proof. destruct t, u; simpl; split; congruence. Qed.

(** The count on the table is the count of key pairs. *)
Lemma rows_of_pair_occurrences (k : string) (t : PriceInfo) (df : list Row)
    (tags : list PriceInfo) :
  rows_of_pair k t df tags = pair_occurrences k t df tags.
Proof.
  unfold rows_of_pair, pair_occurrences. revert tags.
  induction df as [| r df IH]; intros [| u tags]; try reflexivity.
  cbn [combine present_pairs List.filter fst snd].
  destruct (offers_repair r) as [k' |]; [| apply IH].
  rewrite occurrences_cons, <- IH.
  assert ((String.eqb k k' && same_tag t u)
          = match pair_compare (k, t) (k', u) with Eq => true | _ => false end) as ->.
  { destruct (pair_compare (k, t) (k', u)) eqn:Hc.
    - apply pair_compare_eq in Hc. injection Hc as <- <-.
      rewrite String.eqb_refl. now apply same_tag_true.
    - apply not_true_is_false. intros H. apply andb_true_iff in H as [H1 H2].
      apply String.eqb_eq in H1. apply same_tag_true in H2. subst.
      rewrite (proj2 (pair_compare_eq _ _) eq_refl) in Hc. discriminate.
    - apply not_true_is_false. intros H. apply andb_true_iff in H as [H1 H2].
      apply String.eqb_eq in H1. apply same_tag_true in H2. subst.
      rewrite (proj2 (pair_compare_eq _ _) eq_refl) in Hc. discriminate. }
  destruct (pair_compare (k, t) (k', u)); reflexivity.
Qed.

Lemma ascending_keys {K : Type} (cmp : K -> K -> comparison) (groups : list (K * nat)) :
  ascending cmp groups -> StronglySorted (fun a b => cmp a b = Lt) (map fst groups).
Proof.
  unfold ascending. induction 1 as [| e groups _ IH Hall]; simpl; constructor.
  - exact IH.
  - apply List.Forall_forall. intros k Hk. apply in_map_iff in Hk as (e' & <- & He').
    exact (proj1 (List.Forall_forall _ _) Hall e' He').
Qed.

(** X5.  The cross table of [offers repair] against [price_info].  Its row
    labels are, in ascending order, the values of [offers repair] that
    occur; its column labels are, in ascending order of their names, the
    tags that occur among the rows with a value; the row of a label holds
    under each column label the number of rows of the table with that
    value and that tag, 0 for a combination that does not occur; and
    every row of the cross table adds up to the count of its label in the
    group table. *)
Theorem overlap_pivot_spec (df : list Row) (tags : list PriceInfo) :
  length tags = length df ->
  let columns := pivot_columns (overlap df tags) in
  let pivot := overlap_pivot (overlap df tags) in
  StronglySorted (fun k k' => String.compare k k' = Lt) (map fst pivot)
  /\ (forall k, In k (map fst pivot) <-> (0 < rows_of k df)%nat)
  /\ StronglySorted (fun t u => String.compare (tag_name t) (tag_name u) = Lt) columns
  /\ (forall t, In t columns <-> exists k, (0 < rows_of_pair k t df tags)%nat)
  /\ (forall k counts,
        In (k, counts) pivot ->
        counts = map (fun t => rows_of_pair k t df tags) columns
        /\ list_sum counts = rows_of k df
        /\ In (k, rows_of k df) (grouped_offers_repair df)).
Proof.
  intros Hlen columns pivot.
  destruct (overlap_pivot_counts df tags Hlen) as (Hindex & Hcols & Hcell & Hrows).
  assert (map fst pivot = pivot_index (overlap df tags)) as Hlabels.
  { unfold pivot, overlap_pivot. rewrite map_map. cbn [fst]. apply map_id. }
  rewrite Hlabels.
  split; [| split; [exact Hindex | split; [| split]]].
  - unfold pivot_index. apply ascending_keys.
    apply (groupby_size_ascending String.compare String.compare_antisym
             string_compare_lt_trans).
  - unfold columns, pivot_columns.
    apply (ascending_keys tag_compare).
    apply (groupby_size_ascending tag_compare tag_compare_antisym tag_compare_trans).
  - intros t. unfold columns. rewrite Hcols.
    split; intros [k Hk]; exists k; [rewrite rows_of_pair_occurrences | ];
      [exact Hk | now rewrite <- rows_of_pair_occurrences].
  - intros k counts Hin.
    destruct (Hrows k counts Hin) as (_ & Hsum & Hgroup).
    split; [| split; [exact Hsum | exact Hgroup]].
    unfold pivot, overlap_pivot in Hin.
    apply in_map_iff in Hin as (k' & [= -> <-] & _).
    apply map_ext. intros t. now rewrite Hcell, rows_of_pair_occurrences.
Qed.

Lemma overlap_pivot_spec_witness :
  let df := [mkRow (Some "Yes"%string) (VInt 1) (VInt 2) None None;
             mkRow (Some "No"%string) VNone VNone None None;
             mkRow (Some "Yes"%string) VNone VNone None None;
             mkRow None (VInt 3) VNone None None] in
  let tags := [both; none; none; only_first] in
  overlap_pivot (overlap df tags)
  = [("No"%string, [0%nat; 1%nat]); ("Yes"%string, [1%nat; 1%nat])]
  /\ pivot_columns (overlap df tags) = [both; none]
  /\ [1%nat; 1%nat] = map (fun t => rows_of_pair "Yes" t df tags) [both; none]
  /\ list_sum [1%nat; 1%nat] = rows_of "Yes" df
  /\ In ("Yes"%string, rows_of "Yes" df) (grouped_offers_repair df).
Proof.
  intros df tags.
  destruct (overlap_pivot_spec df tags eq_refl) as (_ & _ & _ & _ & H).
  split; [reflexivity | split; [reflexivity |]].
  apply (H "Yes"%string [1%nat; 1%nat]).
  vm_compute. right. left. reflexivity.
Defined.


(** ** Further edge behaviour of the inflation adjustment *)

(** X6.  The handler of [adjust_for_inflation] covers missing years only: with
    a table whose entry for the base year is zero, the ratio is a
    division by zero and the call raises, whatever the price is. *)
Theorem adjust_zero_base_raises (price : PyVal) (base_year target_year : Z)
    (cpi_table : gmap Z float) (b t : float) :
  cpi_table !! base_year = Some b ->
  cpi_table !! target_year = Some t ->
  (b =? 0)%float = true ->
  adjust_for_inflation price base_year target_year cpi_table = Raise ZeroDivisionError.
Proof.
  intros Hb Ht Hz. unfold adjust_for_inflation, getitem, float_div.
  rewrite Hb, Ht. cbn [bind]. now rewrite Hz.
Qed.

Lemma adjust_zero_base_raises_witness :
  adjust_for_inflation (VFloat 10) 2000 2001
    (<[2000 := 0%float]> (<[2001 := 120%float]> ∅))
  = Raise ZeroDivisionError.
Proof.
  apply (adjust_zero_base_raises _ _ _ _ 0%float 120%float); reflexivity.
Defined.

Lemma in_cpi_range_dec (y : Z) : {2015 <= y <= 2025} + {~ (2015 <= y <= 2025)}.
Proof.
  destruct (Z_le_dec 2015 y); [| right; lia].
  destruct (Z_le_dec y 2025); [left | right]; lia.
Qed.

(** X7.  For a numeric price, the result [None] of [adjust_for_inflation] means
    that a year is outside the table and nothing else: inside the table
    the result is always a float. *)
Theorem adjust_none_iff_missing (price : PyVal) (x : float) (base_year target_year : Z) :
  as_float price = Ret x ->
  (adjust_for_inflation price base_year target_year cpi_2015_base = Ret VNone
   <-> ~ (2015 <= base_year <= 2025) \/ ~ (2015 <= target_year <= 2025))
  /\ (2015 <= base_year <= 2025 -> 2015 <= target_year <= 2025 ->
      exists y, adjust_for_inflation price base_year target_year cpi_2015_base
                = Ret (VFloat y)).
Proof.
  intros Hp.
  assert (2015 <= base_year <= 2025 -> 2015 <= target_year <= 2025 ->
          exists y, adjust_for_inflation price base_year target_year cpi_2015_base
                    = Ret (VFloat y)) as Hin.
  { intros Hb Ht. apply cpi_keys in Hb as [b Hb]. apply cpi_keys in Ht as [t Ht].
    eexists. now apply (adjust_for_inflation_in_table price x b t). }
  split; [| exact Hin]. split.
  - intros Hnone.
    destruct (in_cpi_range_dec base_year) as [Hb | Hb]; [| now left].
    destruct (in_cpi_range_dec target_year) as [Ht | Ht]; [| now right].
    destruct (Hin Hb Ht) as [y Hy]. congruence.
  - intros H. apply adjust_for_inflation_missing. now rewrite !cpi_missing.
Qed.

Lemma adjust_none_iff_missing_witness :
  (adjust_for_inflation (VInt 100) 2014 2025 cpi_2015_base = Ret VNone
   <-> ~ (2015 <= 2014 <= 2025) \/ ~ (2015 <= 2025 <= 2025))
  /\ (2015 <= 2014 <= 2025 -> 2015 <= 2025 <= 2025 ->
      exists y, adjust_for_inflation (VInt 100) 2014 2025 cpi_2015_base = Ret (VFloat y)).
Proof. exact (adjust_none_iff_missing (VInt 100) 100 2014 2025 eq_refl). Defined.

(** ** Rows dated before the table *)

Lemma price_increase_of_None (current : PyVal) (b : bool) :
  is_float current = Ret b -> price_increase current VNone = Ret VNone.
Proof.
  intros H. unfold price_increase. rewrite H. cbn [bind]. now destruct b.
Qed.

(** X8.  A row whose first price date lies in a year before 2015 has no CPI
    entry: its adjusted price is [None] and so is its price increase,
    whatever its first price cell holds, a string included. *)
Theorem early_row_is_null (r : Row) (d : Timestamp) (b : bool) :
  First_Price_Date r = Some d ->
  year d < 2015 ->
  is_float (Current_Price r) = Ret b ->
  first_price_adjusted r = Ret VNone
  /\ price_increase (Current_Price r) VNone = Ret VNone
  /\ analyse [r] = Ret ([VNone], [VNone]).
Proof.
  intros Hd Hy Hc.
  assert (first_price_adjusted r = Ret VNone) as Ha.
  { unfold first_price_adjusted. rewrite Hd.
    apply adjust_for_inflation_missing. left. apply cpi_missing. lia. }
  pose proof (price_increase_of_None (Current_Price r) b Hc) as Hi.
  split; [exact Ha | split; [exact Hi |]].
  unfold analyse. cbn [mapM]. rewrite Ha. cbn [bind combine mapM fst snd].
  now rewrite Hi.
Qed.

Lemma early_row_is_null_witness :
  let r := mkRow (Some "Yes"%string) (VStr "about 40") (VInt 55)
                 (Some (mkTimestamp 2012 5 1 0)) (Some (mkTimestamp 2025 3 1 0)) in
  first_price_adjusted r = Ret VNone
  /\ price_increase (Current_Price r) VNone = Ret VNone
  /\ analyse [r] = Ret ([VNone], [VNone]).
Proof.
  intros r. apply (early_row_is_null r (mkTimestamp 2012 5 1 0) true).
  - reflexivity.
  - simpl. lia.
  - reflexivity.
Defined.

(** ** The shape of the derived columns *)

Lemma adjust_result_kind (price v : PyVal) (base_year target_year : Z)
    (cpi_table : gmap Z float) :
  adjust_for_inflation price base_year target_year cpi_table = Ret v -> null_or_float v.
Proof.
  unfold adjust_for_inflation, getitem, mul_float.
  destruct (cpi_table !! base_year) as [b |]; cbn [bind try_except];
    [| intros [= <-]; now left].
  destruct (cpi_table !! target_year) as [t |]; cbn [bind try_except];
    [| intros [= <-]; now left].
  destruct (float_div t b) as [ratio | e]; cbn [bind try_except];
    [| destruct e; simpl; try discriminate; intros [= <-]; now left].
  destruct (as_float price) as [x | e]; cbn [bind py_round2 try_except].
  - intros [= <-]. right. eauto.
  - destruct e; simpl; try discriminate. intros [= <-]. now left.
Qed.

Lemma price_increase_result_kind (current adjusted v : PyVal) :
  price_increase current adjusted = Ret v -> null_or_float v.
Proof.
  unfold price_increase.
  destruct (is_float current) as [[|] | e]; cbn [bind]; try discriminate.
  - destruct (is_float adjusted) as [[|] | e]; cbn [bind]; try discriminate.
    + destruct (py_float current) as [c | e]; cbn [bind]; [| discriminate].
      destruct (py_float adjusted) as [a | e]; cbn [bind]; [| discriminate].
      destruct (float_div (c - a) a) as [q | e]; cbn [bind py_round2]; [| discriminate].
      intros [= <-]. right. eauto.
    + intros [= <-]. now left.
  - intros [= <-]. now left.
Qed.

Lemma price_increase_None_result (current v : PyVal) :
  price_increase current VNone = Ret v -> v = VNone.
Proof.
  unfold price_increase.
  destruct (is_float current) as [[|] | e]; cbn [bind]; try discriminate.
  - change (is_float VNone) with (Ret (A := bool) false). cbn [bind]. now intros [= <-].
  - now intros [= <-].
Qed.

Lemma increases_follow_adjusted (rows : list Row) (adjusted increases : list PyVal) :
  length adjusted = length rows ->
  Forall2 (fun ra i => price_increase (Current_Price (fst ra)) (snd ra) = Ret i)
          (combine rows adjusted) increases ->
  Forall2 (fun a i => null_or_float i /\ (a = VNone -> i = VNone)) adjusted increases.
Proof.
  revert adjusted increases.
  induction rows as [| r rows IH]; intros [| a adjusted] increases Hlen H;
    try discriminate; simpl in H.
  - inversion H. constructor.
  - inversion H as [| ra i l l' Hi Hrest]; subst. constructor.
    + simpl in Hi. split; [now apply price_increase_result_kind in Hi |].
      intros ->. now apply price_increase_None_result in Hi.
    + apply IH; [now injection Hlen | exact Hrest].
Qed.

(** X9.  When the derived columns are computed, each has one entry per row of
    the qualifying subset, every entry is a float or [None], and a row
    whose adjusted price is [None] has the price increase [None]. *)
Theorem analyse_shape (rows : list Row) (adjusted increases : list PyVal) :
  analyse rows = Ret (adjusted, increases) ->
  length adjusted = length rows
  /\ length increases = length rows
  /\ Forall null_or_float adjusted
  /\ Forall2 (fun a i => null_or_float i /\ (a = VNone -> i = VNone)) adjusted increases.
Proof.
  destruct rows as [| r0 rows0]; [discriminate |].
  set (rows := r0 :: rows0). rewrite analyse_rows by discriminate.
  destruct (mapM first_price_adjusted rows) as [adj |] eqn:Hadj; cbn [bind]; [| discriminate].
  destruct (mapM _ (combine rows adj)) as [inc |] eqn:Hinc; cbn [bind]; [| discriminate].
  intros [= <- <-].
  pose proof (mapM_same_length _ _ _ Hadj) as Hlen.
  pose proof (mapM_same_length _ _ _ Hinc) as Hlen'.
  rewrite length_combine, Hlen, Nat.min_id in Hlen'.
  split; [exact Hlen | split; [exact Hlen' | split]].
  - apply mapM_Forall2 in Hadj. clear Hinc Hlen Hlen'.
    induction Hadj as [| r a rows adj Hr _ IH]; constructor; [| exact IH].
    unfold first_price_adjusted in Hr.
    destruct (First_Price_Date r); [now apply adjust_result_kind in Hr |].
    injection Hr as <-. now left.
  - apply mapM_Forall2 in Hinc. now apply (increases_follow_adjusted rows).
Qed.

Lemma analyse_shape_witness :
  let r1 := mkRow (Some "Yes"%string) (VInt 100) (VInt 130)
                  (Some (mkTimestamp 2019 6 1 0)) (Some (mkTimestamp 2025 2 10 0)) in
  let r2 := mkRow (Some "Yes"%string) (VInt 100) (VInt 130)
                  (Some (mkTimestamp 2010 6 1 0)) (Some (mkTimestamp 2025 2 10 0)) in
  length [VFloat 128.19; VNone] = length [r1; r2]
  /\ length [VFloat 1.41; VNone] = length [r1; r2]
  /\ Forall null_or_float [VFloat 128.19; VNone]
  /\ Forall2 (fun a i => null_or_float i /\ (a = VNone -> i = VNone))
             [VFloat 128.19; VNone] [VFloat 1.41; VNone].
Proof.
  intros r1 r2. apply (analyse_shape [r1; r2]). reflexivity.
Defined.


(** ** The price increase of the qualifying rows *)



(** The table stores a [None] among floats as NaN; the lambda gives the
    same on the one as on the other. *)
Lemma price_increase_nan_as_None (current : PyVal) :
  price_increase current (VFloat nan) = price_increase current VNone.
Proof.
  unfold price_increase.
  destruct (is_float current) as [[|] | e]; reflexivity.
Qed.







(** ** What [is_float] accepts *)

(** [is_float] by kind of value.  [None] is rejected; a boolean is
    accepted; a float is accepted unless it is NaN, so the infinities are
    accepted; a string is accepted exactly when [float()] parses it, which
    already rejects the empty string; an integer is accepted when it fits
    a float. *)
Theorem is_float_by_kind :
  is_float VNone = Ret false
  /\ (forall b, is_float (VBool b) = Ret true)
  /\ (forall f, is_float (VFloat f) = Ret (negb (is_nan f)))
  /\ (forall s, is_float (VStr s)
                = Ret (match float_of_string s with Some _ => true | None => false end))
  /\ (forall z x, float_of_int z = Ret x -> is_float (VInt z) = Ret true).
Proof.
  split; [reflexivity | split; [now intros [|] | split; [exact is_float_VFloat | split]]].
  - intros s. unfold is_float. simpl.
    destruct (String.eqb_spec s EmptyString) as [-> | _]; [reflexivity |].
    now destruct (float_of_string s).
  - intros z x Hz. unfold is_float. simpl. now rewrite Hz.
Qed.

(** X10.  The only exception that leaves [is_float] is the [OverflowError] of an
    integer too large for a float; on [None], booleans, floats and
    strings the predicate always returns. *)
Theorem is_float_escapes_only_on_int (v : PyVal) :
  (forall e, is_float v = Raise e ->
     e = OverflowError /\ exists z, v = VInt z /\ float_of_int z = Raise OverflowError)
  /\ ((forall z, v <> VInt z) -> returns (is_float v)).
Proof.
  split; [intros e; apply is_float_raise |].
  intros Hne. apply is_float_returns. intros z ->. now contradiction (Hne z).
Qed.

Lemma is_float_escapes_only_on_int_witness :
  returns (is_float (VStr "1e999")) /\ returns (is_float (VFloat infinity)).
Proof.
  split.
  - apply (is_float_escapes_only_on_int (VStr "1e999")). discriminate.
  - apply (is_float_escapes_only_on_int (VFloat infinity)). discriminate.
Defined.

(** ** An infinite current price *)

Lemma finite_nonzero_spec (a : float) :
  is_finite a = true -> (a =? 0)%float = false ->
  exists s m e, Prim2SF a = S754_finite s m e.
Proof.
  unfold is_finite, is_nan, is_infinity.
  rewrite !FloatAxioms.eqb_spec, abs_spec.
  change (Prim2SF 0) with (S754_zero false).
  change (Prim2SF infinity) with (S754_infinity false).
  destruct (Prim2SF a) as [s | s | | s m e]; simpl; try discriminate.
  - destruct s; vm_compute; discriminate.
  - intros _ _. now exists s, m, e.
Qed.

Lemma SF2Prim_infinity (s : bool) (x : float) :
  Prim2SF x = S754_infinity s -> x = if s then neg_infinity else infinity.
Proof.
  intros H. apply Prim2SF_inj. rewrite H. now destruct s.
Qed.

(** X11.  An infinite current price passes [is_float], and against a finite
    non-zero adjusted price the price increase is an infinity, of the sign
    of the adjusted price: the value is returned like any other. *)
Theorem infinite_current_price (a : float) :
  is_finite a = true -> (a =? 0)%float = false ->
  price_increase (VFloat infinity) (VFloat a)
  = Ret (VFloat (if (a <? 0)%float then neg_infinity else infinity))
  /\ price_increase (VStr "inf") (VFloat a) = price_increase (VFloat infinity) (VFloat a).
Proof.
  intros Hfin Hnz.
  destruct (finite_nonzero_spec a Hfin Hnz) as (s & m & e & Ha).
  assert (is_float (VFloat a) = Ret true) as Hva.
  { rewrite is_float_VFloat. unfold is_nan. rewrite FloatAxioms.eqb_spec, Ha.
    unfold SFeqb, SFcompare. destruct s; now rewrite Z.compare_refl, Pos.compare_cont_refl. }
  assert ((infinity - a)%float = infinity) as Hsub.
  { apply (SF2Prim_infinity false). now rewrite sub_spec, Ha. }
  assert ((infinity / a)%float = if s then neg_infinity else infinity) as Hdiv.
  { apply (SF2Prim_infinity s). now rewrite div_spec, Ha. }
  assert (((if s then neg_infinity else infinity) * 100)%float
          = if s then neg_infinity else infinity) as Hmul.
  { apply (SF2Prim_infinity s). rewrite mul_spec. now destruct s. }
  assert ((a <? 0)%float = s) as Hlt.
  { rewrite ltb_spec, Ha. change (Prim2SF 0) with (S754_zero false). now destruct s. }
  assert (price_increase (VFloat infinity) (VFloat a)
          = Ret (VFloat (if (a <? 0)%float then neg_infinity else infinity))) as Hres.
  { rewrite (price_increase_valid (VFloat infinity) (VFloat a) infinity a);
      try reflexivity; try assumption.
    unfold float_div. rewrite Hnz. cbn [bind]. rewrite Hsub, Hdiv, Hmul, Hlt.
    now destruct s. }
  split; [exact Hres |].
  rewrite Hres.
  rewrite (price_increase_valid (VStr "inf") (VFloat a) infinity a);
    try reflexivity; try assumption.
  unfold float_div. rewrite Hnz. cbn [bind]. rewrite Hsub, Hdiv, Hmul, Hlt.
  now destruct s.
Qed.

Lemma infinite_current_price_witness :
  price_increase (VFloat infinity) (VFloat 128.19) = Ret (VFloat infinity)
  /\ price_increase (VStr "inf") (VFloat 128.19)
     = price_increase (VFloat infinity) (VFloat 128.19).
Proof.
  exact (infinite_current_price 128.19 eq_refl eq_refl).
Defined.


(** ** Which values the "yes" filter keeps *)








(** * Further properties of the Collector *)

(** ** Requests of a sequence *)

Lemma run_prog_bind {A B : Type} (net : request -> http_reply) (p : prog A)
    (k : A -> prog B) :
  run net (prog_bind p k) = run net (k (run net p)).
Proof. induction p as [a | r c IH]; simpl; [reflexivity | apply IH]. Qed.

Lemma calls_prog_bind {A B : Type} (net : request -> http_reply) (p : prog A)
    (k : A -> prog B) :
  calls net (prog_bind p k) = calls net p ++ calls net (k (run net p)).
Proof.
  induction p as [a | r c IH]; simpl; [reflexivity | now rewrite IH].
Qed.

Lemma lookup_calls (net : request -> http_reply) (url : string) :
  calls net (get_oldest_and_newest_archive_date url)
  = if String.eqb url EmptyString then [] else [cdx_request url].
Proof.
  unfold get_oldest_and_newest_archive_date.
  now destruct (String.eqb url EmptyString).
Qed.

Lemma lookup_result (net : request -> http_reply) (url : string) :
  exists p, run net (get_oldest_and_newest_archive_date url) = Ret p
            /\ (p = no_dates \/ exists o n, p = (Some o, Some n))
            /\ (url = EmptyString -> p = no_dates).
Proof.
  destruct (String.eqb_spec url EmptyString) as [-> | Hne].
  - exists no_dates. repeat split. now left.
  - destruct (lookup_run net url Hne) as [-> _].
    destruct (lookup_body (net (cdx_request url))) as [p | e] eqn:Hbody; cbn [try_except].
    + exists p. split; [reflexivity | split; [| now intros]].
      exact (lookup_body_shape _ p Hbody).
    + exists no_dates. split; [reflexivity | split; [now left | reflexivity]].
Qed.

(** X13.  The loop issues one request per row with a website, in row order, and
    none for a row without one. *)
Theorem enrich_requests (net : request -> http_reply) (rows : list poi) :
  calls net (enrich rows)
  = map (fun p => cdx_request (website p)) (List.filter has_website rows).
Proof.
  induction rows as [| row rows IH]; [reflexivity |].
  cbn [enrich]. rewrite calls_prog_bind, lookup_calls.
  destruct (lookup_result net (website row)) as (p & -> & _ & _).
  destruct p as [oldest newest]. rewrite calls_prog_bind, IH.
  cbn [List.filter]. unfold has_website at 2.
  destruct (String.eqb (website row) EmptyString); simpl;
    now rewrite app_nil_r.
Qed.

Lemma enrich_result_rows (net : request -> http_reply) (rows : list poi) :
  exists out, run net (enrich rows) = Ret out /\ map shop out = rows.
Proof.
  induction rows as [| row rows (out & Hrun & Hshop)].
  - now exists [].
  - cbn [enrich]. rewrite run_prog_bind.
    destruct (lookup_result net (website row)) as (p & Hp & _ & _).
    rewrite Hp. destruct p as [oldest newest].
    rewrite run_prog_bind, Hrun. cbn [run].
    exists (mkEnriched row oldest newest :: out).
    split; [reflexivity | simpl; now rewrite Hshop].
Qed.

(** X14.  The loop never raises and keeps the table: the result has one row per
    input row, in order and with the shop fields untouched; the two
    archive columns of a row are the result of the lookup of its own
    website, hence both null or both set, and null for an empty
    website. *)
Theorem enrich_result (net : request -> http_reply) (rows : list poi) :
  exists out,
    run net (enrich rows) = Ret out
    /\ map shop out = rows
    /\ Forall (fun e => run net (get_oldest_and_newest_archive_date (website (shop e)))
                        = Ret (archive_oldest e, archive_newest e)) out
    /\ Forall all_or_nothing out
    /\ Forall (fun e => website (shop e) = EmptyString ->
                        archive_oldest e = None /\ archive_newest e = None) out.
Proof.
  induction rows as [| row rows (out & Hrun & Hshop & Hlook & Haon & Hempty)].
  - exists []. repeat split; constructor.
  - cbn [enrich]. rewrite run_prog_bind.
    destruct (lookup_result net (website row)) as (p & Hp & Hshape & Hnone).
    rewrite Hp. destruct p as [oldest newest].
    rewrite run_prog_bind, Hrun. cbn [run].
    exists (mkEnriched row oldest newest :: out).
    split; [reflexivity | split; [simpl; now rewrite Hshop | split; [| split]]].
    + constructor; [exact Hp | exact Hlook].
    + constructor; [| exact Haon]. unfold all_or_nothing. simpl.
      destruct Hshape as [[= -> ->] | (o & n & [= -> ->])]; [now left | right; eauto].
    + constructor; [| exact Hempty]. simpl. intros Hw.
      specialize (Hnone Hw). injection Hnone as -> ->. now split.
Qed.

(** X15.  Every element of the reply becomes one row of the output, with or
    without tags or website. *)
Theorem collect_keeps_every_element (net : request -> http_reply)
    (elements : list element) :
  exists out,
    run net (collect elements) = Ret out
    /\ map shop out = map extract_row elements
    /\ length out = length elements.
Proof.
  unfold collect.
  destruct (enrich_result_rows net (map extract_row elements)) as (out & Hrun & Hshop).
  exists out. split; [exact Hrun | split; [exact Hshop |]].
  now rewrite <- (length_map shop), Hshop, length_map.
Qed.


(** ** What the lookup depends on *)

Lemma str_le_antisym (a b : string) : str_le a b -> str_le b a -> a = b.
Proof. apply String.leb_antisym. Qed.

(** X16.  The two dates depend on the collection of timestamps only: the header
    row, the other columns and the order of the data rows are
    immaterial. *)
Theorem lookup_ignores_row_order (header header' : json_row)
    (rows rows' : list json_row) (ts ts' : list string) :
  rows <> [] ->
  map timestamp_of_row rows = map Some ts ->
  map timestamp_of_row rows' = map Some ts' ->
  Permutation ts ts' ->
  lookup_body (Response 200 (Some (DList (header :: rows))))
  = lookup_body (Response 200 (Some (DList (header' :: rows')))).
Proof.
  intros Hne Hts Hts' Hperm.
  assert (rows' <> []) as Hne'.
  { intros ->. destruct ts' as [| t ts']; [| discriminate Hts'].
    apply Permutation_sym, Permutation_nil in Hperm. subst ts.
    destruct rows; [now apply Hne | discriminate Hts]. }
  destruct (lookup_body_rows header rows ts Hne Hts)
    as (o & n & _ & _ & Ho & Hn & Hmm & ->).
  destruct (lookup_body_rows header' rows' ts' Hne' Hts')
    as (o' & n' & _ & _ & Ho' & Hn' & Hmm' & ->).
  assert (o = o') as <-.
  { apply str_le_antisym.
    - apply Hmm. now apply (Permutation_in _ (Permutation_sym Hperm)).
    - apply Hmm'. now apply (Permutation_in _ Hperm). }
  assert (n = n') as <-.
  { apply str_le_antisym.
    - apply Hmm'. now apply (Permutation_in _ Hperm).
    - apply Hmm. now apply (Permutation_in _ (Permutation_sym Hperm)). }
  reflexivity.
Qed.

Lemma lookup_ignores_row_order_witness :
  lookup_body (Response 200 (Some (DList
    [RList [CStr "urlkey"; CStr "timestamp"];
     RList [CStr "a"; CStr "20210101000000"];
     RList [CStr "a"; CStr "20190315120000"]])))
  = lookup_body (Response 200 (Some (DList
    [RList [CNull; CNull];
     RList [CStr "b"; CStr "20190315120000"; CStr "text/html"];
     RList [CStr "b"; CStr "20210101000000"; CStr "text/html"]]))).
Proof.
  apply (lookup_ignores_row_order _ _ _ _
           ["20210101000000"; "20190315120000"]%string
           ["20190315120000"; "20210101000000"]%string).
  - discriminate.
  - reflexivity.
  - reflexivity.
  - apply perm_swap.
Defined.

(** X17.  A site with a single snapshot gets the same date twice. *)
Theorem single_snapshot (header row : json_row) (t : string) :
  timestamp_of_row row = Some t ->
  lookup_body (Response 200 (Some (DList [header; row])))
  = Ret (Some (format_date t), Some (format_date t)).
Proof.
  intros Ht.
  destruct (lookup_body_rows header [row] [t]) as (o & n & _ & _ & Ho & Hn & _ & ->).
  - discriminate.
  - simpl. now rewrite Ht.
  - destruct Ho as [<- | []]. destruct Hn as [<- | []]. reflexivity.
Qed.

Lemma single_snapshot_witness :
  lookup_body (Response 200 (Some (DList
    [RList [CStr "urlkey"; CStr "timestamp"];
     RList [CStr "a"; CStr "20190315120000"]])))
  = Ret (Some "2019-03-15"%string, Some "2019-03-15"%string).
Proof.
  exact (single_snapshot _ (RList [CStr "a"; CStr "20190315120000"])
           "20190315120000" eq_refl).
Defined.

(** X18.  The date of a timestamp is read off its first eight characters: what
    follows them, the time of day, does not matter. *)
Theorem format_date_ignores_time (day rest rest' : string) :
  String.length day = 8%nat ->
  format_date (day ++ rest) = format_date (day ++ rest').
Proof.
  intros Hlen. split_chars day 8.
  destruct day; [| discriminate Hlen].
  cbv [format_date slice Nat.sub substring String.append].
  now destruct rest, rest'.
Qed.

Lemma format_date_ignores_time_witness :
  format_date ("20190315" ++ "120000") = format_date ("20190315" ++ "235959").
Proof. apply format_date_ignores_time. reflexivity. Defined.

(** ** The address of a shop *)

Lemma list_ascii_roundtrip (l : list ascii) :
  list_ascii_of_string (string_of_list_ascii l) = l.
Proof. apply list_ascii_of_string_of_list_ascii. Qed.

Lemma lstrip_by_head (drop : ascii -> bool) (l : list ascii) :
  match lstrip_by drop l with
  | [] => True
  | c :: _ => drop c = false
  end.
Proof.
  induction l as [| c l IH]; simpl; [exact I |].
  destruct (drop c) eqn:Hc; [exact IH | exact Hc].
Qed.

Lemma lstrip_by_suffix (drop : ascii -> bool) (l : list ascii) :
  exists dropped, l = dropped ++ lstrip_by drop l.
Proof.
  induction l as [| c l (dropped & IH)]; simpl; [now exists [] |].
  destruct (drop c).
  - exists (c :: dropped). simpl. now f_equal.
  - now exists [].
Qed.

(** After [strip] neither end of the text is a dropped character. *)
Lemma strip_by_ends (drop : ascii -> bool) (s : string) :
  match list_ascii_of_string (strip_by drop s) with
  | [] => True
  | c :: _ => drop c = false
  end
  /\ match rev (list_ascii_of_string (strip_by drop s)) with
     | [] => True
     | c :: _ => drop c = false
     end.
Proof.
  unfold strip_by. rewrite list_ascii_roundtrip, rev_involutive.
  set (l1 := lstrip_by drop (list_ascii_of_string s)).
  split; [| apply lstrip_by_head].
  destruct (lstrip_by_suffix drop (rev l1)) as (dropped & Hd).
  assert (l1 = rev (lstrip_by drop (rev l1)) ++ rev dropped) as Hl1.
  { rewrite <- rev_app_distr, <- Hd. now rewrite rev_involutive. }
  pose proof (lstrip_by_head drop (list_ascii_of_string s)) as Hhead.
  fold l1 in Hhead.
  destruct (rev (lstrip_by drop (rev l1))) as [| c rest]; [exact I |].
  rewrite Hl1 in Hhead. exact Hhead.
Qed.

(** X19.  An address never begins or ends with white space, whatever the tags
    hold; and it is empty when none of the four address tags has a
    value, the separators of the template being stripped. *)
Theorem make_address_trimmed (street housenumber postcode city : string) :
  trimmed (make_address street housenumber postcode city)
  /\ make_address EmptyString EmptyString EmptyString EmptyString = EmptyString.
Proof.
  split; [| reflexivity]. unfold trimmed, make_address. apply strip_by_ends.
Qed.

(** X20.  An element without tags, or with tags that lack the keys read by the
    script, gives a row of empty fields: no key is required. *)
Theorem extract_row_defaults (el : element) (tags : gmap string string) :
  el_tags el = None
  \/ (el_tags el = Some tags
      /\ forall key, In key ["name"; "addr:street"; "addr:housenumber"; "addr:postcode";
                             "addr:city"; "lattude"; "longitude"; "website"]%string ->
                     tags !! key = None) ->
  extract_row el = mkPoi EmptyString EmptyString EmptyString EmptyString EmptyString.
Proof.
  intros [Hnone | [Hsome Hkeys]]; unfold extract_row.
  - rewrite Hnone. reflexivity.
  - rewrite Hsome. cbn [default]. unfold tag.
    rewrite !Hkeys by (simpl; tauto). reflexivity.
Qed.

Lemma extract_row_defaults_witness :
  extract_row (mkElement (Some {[ "shop"%string := "bicycle"%string ]}))
  = mkPoi EmptyString EmptyString EmptyString EmptyString EmptyString.
Proof.
  apply (extract_row_defaults _ {[ "shop"%string := "bicycle"%string ]}).
  right. split; [reflexivity |].
  intros key Hin. simpl in Hin.
  repeat (destruct Hin as [<- | Hin]; [reflexivity |]). destruct Hin.
Defined.


Lemma list_ascii_of_append (a b : string) :
  list_ascii_of_string (a ++ b) = list_ascii_of_string a ++ list_ascii_of_string b.
Proof.
  induction a as [| c a IH]; [reflexivity |].
  change (String c a ++ b)%string with (String c (a ++ b)).
  cbn [list_ascii_of_string]. now rewrite IH.
Qed.

(** [strip] leaves a text alone whose two ends are not to be dropped. *)
Lemma strip_by_kept (drop : ascii -> bool) (s : string) (c1 c2 : ascii)
    (l1 l2 : list ascii) :
  list_ascii_of_string s = c1 :: l1 ->
  rev (list_ascii_of_string s) = c2 :: l2 ->
  drop c1 = false -> drop c2 = false ->
  strip_by drop s = s.
Proof.
  intros H1 H2 Hc1 Hc2. unfold strip_by.
  rewrite H1. cbn [lstrip_by]. rewrite Hc1, <- H1, H2. cbn [lstrip_by].
  rewrite Hc2, <- H2, rev_involutive. apply string_of_list_ascii_of_string.
Qed.

(** X21.  With a street that does not begin, and a city that does not end, with
    a comma, a blank or white space, the address is the filled-in
    template as it stands: the separators in the middle stay, also
    around a missing house number or postcode. *)
Theorem make_address_template (street housenumber postcode city : string)
    (c1 c2 : ascii) (rest1 init2 : string) :
  street = String c1 rest1 ->
  city = (init2 ++ String c2 EmptyString)%string ->
  in_chars ", " c1 = false -> is_unicode_space c1 = false ->
  in_chars ", " c2 = false -> is_unicode_space c2 = false ->
  make_address street housenumber postcode city
  = (street ++ " " ++ housenumber ++ ", " ++ postcode ++ " " ++ city)%string.
Proof.
  intros -> -> Hs1 Hw1 Hs2 Hw2. unfold make_address.
  set (raw := (String c1 rest1 ++ " " ++ housenumber ++ ", " ++ postcode ++ " "
               ++ init2 ++ String c2 EmptyString)%string).
  assert (exists l1, list_ascii_of_string raw = c1 :: l1) as [l1 Hl1].
  { unfold raw. rewrite list_ascii_of_append. cbn [list_ascii_of_string app]. eauto. }
  assert (exists l2, rev (list_ascii_of_string raw) = c2 :: l2) as [l2 Hl2].
  { unfold raw. rewrite !list_ascii_of_append. cbn [list_ascii_of_string].
    rewrite !app_assoc, rev_app_distr. cbn [rev app]. eauto. }
  rewrite (strip_by_kept (in_chars ", ") raw c1 c2 l1 l2) by assumption.
  now apply (strip_by_kept is_unicode_space raw c1 c2 l1 l2).
Qed.

Lemma make_address_template_witness :
  make_address "Ringstr." EmptyString EmptyString "Wien" = "Ringstr. ,  Wien"%string.
Proof.
  apply (make_address_template "Ringstr." EmptyString EmptyString "Wien"
           "R" "n" "ingstr." "Wie");
    reflexivity.
Defined.
